(** * Chaos-Projectile: particle kinematics, event dispatch and input

    A shallow embedding of [src/chaosparticle.py] (vector helpers, [Particle],
    [Emitter]), of [src/events.py] (the event classes and the
    [EventManager]) and of [src/controller.py] (the [InputController]),
    followed by the properties of the specification that concern them and
    by further properties of the code.

    Numbers.  Python integers ([life], [amount], the loop index) are [Z].
    Python floats are read in two ways.  Module [chaosparticle] takes them
    as real numbers [R]: it is the exact arithmetic the code writes down
    ([np.linalg.norm], [math.sin], [math.cos], [/], [*], [+]), and every
    property proved of it that depends on the laws of the reals says so.
    Module [chaosparticle_binary64] takes the two vector helpers in the
    arithmetic Python runs them in, IEEE 754 binary64, where results are
    rounded and squares overflow. *)

From Stdlib Require Import Reals ZArith List String Bool Arith Lia Lra Psatz.
From Stdlib Require Floats.
Import ListNotations.

(** ** The Python fragments the modules rely on *)

Module Py.

(** Exceptions are identified by the name of their class. *)
Definition exn := string.

Definition TypeError : exn := "TypeError"%string.
Definition AttributeError : exn := "AttributeError"%string.
Definition RuntimeError : exn := "RuntimeError"%string.

(** The result of evaluating an expression that may raise. *)
Inductive result (A : Type) : Type :=
| Ok (a : A)
| Raise (e : exn).
Arguments Ok {A} a.
Arguments Raise {A} e.

Definition bind {A B} (r : result A) (k : A -> result B) : result B :=
  match r with
  | Ok a => k a
  | Raise e => Raise e
  end.

(** [range(n)]: the integers [0 .. n-1], empty when [n <= 0]. *)
Definition range (n : Z) : list Z := map Z.of_nat (seq 0 (Z.to_nat n)).

End Py.

Notation "x <- c ;; k" := (Py.bind c (fun x => k))
  (at level 61, c at next level, right associativity).

(** ** chaosparticle.py *)

Module chaosparticle.
Import Py.
Local Open Scope R_scope.

(** A "2d list" [[x, y]]. *)
Definition Vector2 : Type := (R * R)%type.

(** [np.linalg.norm(vector)] for a vector of two components. *)
Definition norm (vector : Vector2) : R :=
  sqrt (fst vector * fst vector + snd vector * snd vector).

(** [np.array(a) + np.array(b)]: a fresh array, the component-wise sum. *)
Definition array_add (a b : Vector2) : Vector2 :=
  (fst a + fst b, snd a + snd b).

(** [vector[0] == 0 and vector[1] == 0] *)
Definition is_origin (vector : Vector2) : bool :=
  (if Req_dec_T (fst vector) 0 then true else false)
  && (if Req_dec_T (snd vector) 0 then true else false).

(** [get_normalized]: [None] for (0, 0), otherwise the components divided
    by the norm. *)
Definition get_normalized (vector : Vector2) : option Vector2 :=
  let result := None in
  if negb (is_origin vector) then
    let n := norm vector in
    Some (fst vector / n, snd vector / n)
  else result.

(** [get_rotated_vector].  The statement [nX, nY = get_normalized(vector)]
    unpacks the returned value; unpacking [None] raises [TypeError]. *)
Definition get_rotated_vector (vector : Vector2) (angle : R)
  : result Vector2 :=
  let length := norm vector in
  match get_normalized vector with
  | None => Raise TypeError
  | Some (nX, nY) =>
      let sin_a := sin angle in
      let cos_a := cos angle in
      let result := (nX * cos_a - nY * sin_a, nX * sin_a + nY * cos_a) in
      let result := (fst result * length, snd result * length) in
      Ok result
  end.

(** The pair [get_rotated_vector] computes once the unpacking has
    succeeded. *)
Definition rotated (vector : Vector2) (angle : R) : Vector2 :=
  let length := norm vector in
  let nX := fst vector / length in
  let nY := snd vector / length in
  ((nX * cos angle - nY * sin angle) * length,
   (nX * sin angle + nY * cos angle) * length).

Module Particle.
Record t : Type := make {
  life : Z;
  position : Vector2;
  velocity : Vector2;
  acceleration : Vector2
}.

Definition set_life (v : Z) (p : t) : t :=
  make v (position p) (velocity p) (acceleration p).
Definition set_position (v : Vector2) (p : t) : t :=
  make (life p) v (velocity p) (acceleration p).
Definition set_velocity (v : Vector2) (p : t) : t :=
  make (life p) (position p) v (acceleration p).

(** The methods of the class besides [__init__]: there are none. *)
Definition methods : list (string * (t -> t)) := [].

Fixpoint lookup (name : string) (tbl : list (string * (t -> t)))
  : option (t -> t) :=
  match tbl with
  | [] => None
  | (n, f) :: tbl' => if String.eqb n name then Some f else lookup name tbl'
  end.

(** [particle.name()]: a name that is neither an instance attribute nor
    defined by the class raises [AttributeError]. *)
Definition call (name : string) (p : t) : result t :=
  match lookup name methods with
  | Some f => Ok (f p)
  | None => Raise AttributeError
  end.
End Particle.

(** The particles of an emitter start out sharing the [position] and
    [acceleration] objects handed to the constructor, and [self.position] is
    that same [position] object.  No method changes such an object in place:
    the updates bind a fresh array to the attribute of one particle.  Values
    therefore stand for the objects. *)
Module Emitter.
Record t : Type := make {
  particles : list Particle.t;
  life : Z;
  position : Vector2
}.

Definition set_particles (ps : list Particle.t) (e : t) : t :=
  make ps (life e) (position e).
Definition set_life (v : Z) (e : t) : t :=
  make (particles e) v (position e).

(** The angle handed to [get_rotated_vector] for loop index [p]:
    [angle = 30*p] and then [angle = angle - ((30*(amount-1)) / 2)].
    [30*(amount-1)] is even, so the quotient is the same number under
    integer and under true division. *)
Definition spawn_angle (amount p : Z) : R :=
  let angle := IZR (30 * p) in
  angle - (IZR (30 * (amount - 1)) / 2).

(** The body of [for p in range(amount)], run over the remaining
    indices; [acc] is [self.particles] so far. *)
Fixpoint spawn (amount life : Z) (position velocity acceleration : Vector2)
    (indices : list Z) (acc : list Particle.t)
  : result (list Particle.t) :=
  match indices with
  | [] => Ok acc
  | p :: rest =>
      vel <- get_rotated_vector velocity (spawn_angle amount p) ;;
      spawn amount life position velocity acceleration rest
            (acc ++ [Particle.make life position vel acceleration])
  end.

(** [Emitter.__init__] *)
Definition init (position : Vector2) (amount life : Z)
    (velocity acceleration : Vector2) : result t :=
  ps <- spawn amount life position velocity acceleration
              (range amount) [] ;;
  Ok (make ps life position).

(** The loop of [update] over the particles not yet visited ([todo]);
    [done] are the particles already updated.  When the body raises, the
    loop stops and the list is left as it is at that moment. *)
Fixpoint update_loop (todo done : list Particle.t)
  : list Particle.t * option exn :=
  match todo with
  | [] => (done, None)
  | particle :: rest =>
      match Particle.call "move" particle with
      | Raise e => (done ++ particle :: rest, Some e)
      | Ok moved =>
          let aged :=
            Particle.set_life (Particle.life moved - 1)%Z moved in
          update_loop rest (done ++ [aged])
      end
  end.

(** [update]: the emitter after the call, and the exception that ended
    the call, if one did. *)
Definition update (e : t) : t * option exn :=
  let e1 := set_life (life e - 1)%Z e in
  let '(ps, raised) := update_loop (particles e1) [] in
  (set_particles ps e1, raised).

(** [update_velocity] *)
Definition update_velocity (e : t) : t :=
  set_particles
    (map (fun particle =>
            Particle.set_velocity
              (array_add (Particle.velocity particle)
                         (Particle.acceleration particle)) particle)
         (particles e)) e.

(** [update_position] *)
Definition update_position (e : t) : t :=
  set_particles
    (map (fun particle =>
            Particle.set_position
              (array_add (Particle.position particle)
                         (Particle.velocity particle)) particle)
         (particles e)) e.

(** [update_life] *)
Definition update_life (e : t) : t :=
  set_particles
    (map (fun particle =>
            Particle.set_life (Particle.life particle - 1)%Z particle)
         (particles e)) e.

(** The four entry points, as a caller picks among them frame after
    frame.  A caller that survives the exception of [update] goes on
    with the emitter as the call left it. *)
Inductive operation : Type :=
| Update
| UpdateVelocity
| UpdatePosition
| UpdateLife.

Definition apply_operation (op : operation) (e : t) : t :=
  match op with
  | Update => fst (update e)
  | UpdateVelocity => update_velocity e
  | UpdatePosition => update_position e
  | UpdateLife => update_life e
  end.

Definition run (ops : list operation) (e : t) : t :=
  fold_left (fun e' op => apply_operation op e') ops e.
End Emitter.

End chaosparticle.

(** ** chaosparticle.py, in binary64 *)

(** [get_normalized] as Python runs it: the components are binary64
    numbers, and every operation rounds its exact result to the nearest
    one. *)
Module chaosparticle_binary64.
Import Floats.
Local Open Scope float_scope.

Definition Vector2 : Type := (float * float)%type.

(** [np.linalg.norm(vector)]: the square root of the dot product of the
    vector with itself. *)
Definition norm (vector : Vector2) : float :=
  PrimFloat.sqrt (fst vector * fst vector + snd vector * snd vector).

(** [get_normalized] *)
Definition get_normalized (vector : Vector2) : option Vector2 :=
  let result := None in
  if negb ((fst vector =? 0) && (snd vector =? 0)) then
    let n := norm vector in
    Some (fst vector / n, snd vector / n)
  else result.
End chaosparticle_binary64.

(** ** events.py *)

Module events.
Import Py.

(** The event classes.  Only the fields are kept; [name] is a constant of
    each class. *)
Inductive Event : Type :=
| GenericEvent
| TickEvent (dt : Z)
| ResizeWindowEvent (width height : Z)
| QuitEvent
| KeyPressed (key : Z)
| KeyReleased (key : Z)
| MouseButtonDown
| MouseMoved (x y : Z)
| AxisMoved (x_axis y_axis : R)
| HatMoved (x y : Z)
| UpdateImagePosition (entity_ID : Z) (new_position : Z * Z)
| PlayerMoved (new_position : R * R)
| PlayerStoppedMovement.

(** The [name] each class gives its instances in [__init__]. *)
Definition name (e : Event) : string :=
  match e with
  | GenericEvent => "Generic Event"
  | TickEvent _ => "CPU Tick Event"
  | ResizeWindowEvent _ _ => "Resize Window Event"
  | QuitEvent => "Program Quit Event"
  | KeyPressed _ => "Key Down Event"
  | KeyReleased _ => "Key Released Event"
  | MouseButtonDown => "Mouse button down"
  | MouseMoved _ _ => "Mouse Moved Event"
  | AxisMoved _ _ => "Controller Axis Moved Event"
  | HatMoved _ _ => "Controller Hat Moved Event"
  | UpdateImagePosition _ _ => "Update Image Position"
  | PlayerMoved _ => "Player Moved Event"
  | PlayerStoppedMovement => "Player Stopped Movement"
  end.

(** The class of an event, by its Python name. *)
Definition class_name (e : Event) : string :=
  match e with
  | GenericEvent => "Event"
  | TickEvent _ => "TickEvent"
  | ResizeWindowEvent _ _ => "ResizeWindowEvent"
  | QuitEvent => "QuitEvent"
  | KeyPressed _ => "KeyPressed"
  | KeyReleased _ => "KeyReleased"
  | MouseButtonDown => "MouseButtonDown"
  | MouseMoved _ _ => "MouseMoved"
  | AxisMoved _ _ => "AxisMoved"
  | HatMoved _ _ => "HatMoved"
  | UpdateImagePosition _ _ => "UpdateImagePosition"
  | PlayerMoved _ => "PlayerMoved"
  | PlayerStoppedMovement => "PlayerStoppedMovement"
  end.

(** A listener is known to the manager by its identity only. *)
Definition Listener : Type := nat.

(** The dictionary behind [self.listeners].  Every value stored is [1], so
    the keys are all there is to it: [keys] lists them in iteration order,
    without repetition.  [changes] counts the insertions of a new key and
    the deletions of a key since the dictionary was created; it stands for
    the layout of the hash table, which only those two operations alter.
    Listeners are assumed to stay alive while they are registered, so no
    entry disappears through its weak reference. *)
Module WeakKeyDictionary.
Record t : Type := make {
  keys : list Listener;
  changes : nat
}.

Definition empty : t := make [] 0.

Definition len (d : t) : nat := List.length (keys d).

(** [key in d] *)
Definition contains (key : Listener) (d : t) : bool :=
  existsb (Nat.eqb key) (keys d).

(** [d[key] = 1]: a key already present keeps its place and only has its
    value overwritten; a new key is entered after the others. *)
Definition setitem (key : Listener) (d : t) : t :=
  if contains key d then d
  else make (keys d ++ [key]) (S (changes d)).

(** [del d[key]], for a key that is present. *)
Definition delitem (key : Listener) (d : t) : t :=
  make (filter (fun k => negb (Nat.eqb key k)) (keys d)) (S (changes d)).

(** What the iterator made by [for k in d] finds when it is asked for its
    next key.  It remembers the size [used] the dictionary had when the
    loop began, and here also the change count [seen].  It first
    compares sizes and raises [RuntimeError] ("dictionary changed size
    during iteration") when they differ.  With equal sizes but an
    insertion or deletion in between (one of each, say), the key it
    produces depends on the layout of the table: the model does not
    decide that case.  Otherwise it goes on with the keys it has not
    produced yet. *)
Inductive check : Type :=
| Intact
| SizeChanged
| LayoutChanged.

Definition iter_check (used seen : nat) (d : t) : check :=
  if negb (Nat.eqb (len d) used) then SizeChanged
  else if negb (Nat.eqb (changes d) seen) then LayoutChanged
  else Intact.
End WeakKeyDictionary.

Module EventManager.
Record t : Type := make { listeners : WeakKeyDictionary.t }.

(** [__init__] *)
Definition init : t := make WeakKeyDictionary.empty.

(** [register_listener] *)
Definition register_listener (listener : Listener) (self : t) : t :=
  make (WeakKeyDictionary.setitem listener (listeners self)).

(** [unregister_listener] *)
Definition unregister_listener (listener : Listener) (self : t) : t :=
  if WeakKeyDictionary.contains listener (listeners self)
  then make (WeakKeyDictionary.delitem listener (listeners self))
  else self.

(** What a listener's [notify] does to the manager: a sequence of
    registrations and unregistrations. *)
Inductive call : Type :=
| Register (listener : Listener)
| Unregister (listener : Listener).

Definition run_call (c : call) (self : t) : t :=
  match c with
  | Register l => register_listener l self
  | Unregister l => unregister_listener l self
  end.

Definition run_calls (cs : list call) (self : t) : t :=
  fold_left (fun m c => run_call c m) cs self.

(** A call that changes nothing: registering a listener that is
    registered, unregistering one that is not. *)
Definition idle (self : t) (c : call) : Prop :=
  match c with
  | Register l => In l (WeakKeyDictionary.keys (listeners self))
  | Unregister l => ~ In l (WeakKeyDictionary.keys (listeners self))
  end.

(** What one call of [listener.notify(event)] does, seen from the manager:
    the registrations and unregistrations it performs, in order, and the
    exception it ends with when it does not return.  A [notify] that calls
    [post] itself is not described by this. *)
Record reaction : Type := {
  calls : list call;
  raised : option exn
}.

(** A [notify] that performs the calls [cs] and returns. *)
Definition returning (cs : list call) : reaction :=
  {| calls := cs; raised := None |}.

(** How a call of [post] ends: the manager after the call and the listeners
    whose [notify] has been called, in order.  [post] handles no exception:
    what a listener raises, and the [RuntimeError] of the iterator, leave
    [post] as they are.  [Undecided]: the iterator has met a table that was
    changed without a change of size.  What it produces then depends on the
    layout of the table (the order of the hash values in older versions of
    Python, the holes and the resizing of the entry list in newer ones), so
    the model says nothing about such a call, neither how it ends nor whom
    it notifies. *)
Inductive ending : Type :=
| Returned (self : t) (notified : list Listener)
| Failed (e : exn) (self : t) (notified : list Listener)
| Undecided.

(** The ending of a loop that has first notified [listener]. *)
Definition also_notified (listener : Listener) (rest : ending) : ending :=
  match rest with
  | Returned self notified => Returned self (listener :: notified)
  | Failed e self notified => Failed e self (listener :: notified)
  | Undecided => Undecided
  end.

(** The ending of a loop that has first notified the listeners [before],
    one after the other. *)
Definition notified_first (before : list Listener) (rest : ending) : ending :=
  fold_right also_notified rest before.

Section Post.
(** [listener.notify(event)], seen from the manager. *)
Variable notify : Listener -> Event -> reaction.

(** The loop of [post]; [used], [seen] and [rest] are the state of the
    iterator over [self.listeners], [rest] being the keys it has not
    produced yet. *)
Fixpoint post_loop (used seen : nat) (rest : list Listener)
    (event : Event) (self : t) : ending :=
  match WeakKeyDictionary.iter_check used seen (listeners self) with
  | WeakKeyDictionary.SizeChanged => Failed RuntimeError self []
  | WeakKeyDictionary.LayoutChanged => Undecided
  | WeakKeyDictionary.Intact =>
      match rest with
      | [] => Returned self []
      | listener :: rest' =>
          let r := notify listener event in
          let self1 := run_calls (calls r) self in
          match raised r with
          | Some e => Failed e self1 [listener]
          | None =>
              also_notified listener (post_loop used seen rest' event self1)
          end
      end
  end.

(** [post] *)
Definition post (event : Event) (self : t) : ending :=
  let d := listeners self in
  post_loop (WeakKeyDictionary.len d) (WeakKeyDictionary.changes d)
            (WeakKeyDictionary.keys d) event self.
End Post.
End EventManager.

End events.

(** ** controller.py *)

(** What the module uses of pygame.  The library is not part of the
    repository: the answers of its functions are taken as given. *)
Module pygame.
Import Py.

(** The class of the exceptions pygame raises. *)
Definition error : exn := "pygame.error"%string.

(** An entry of the event queue, by its [type], with the attributes the
    controller reads: [w] and [h] of a VIDEORESIZE, [key] of a KEYDOWN or
    KEYUP.  [OTHER] stands for every type the controller does not test. *)
Inductive event : Type :=
| VIDEORESIZE (w h : Z)
| QUIT
| KEYDOWN (key : Z)
| KEYUP (key : Z)
| MOUSEMOTION
| MOUSEBUTTONDOWN
| JOYBUTTONDOWN
| JOYAXISMOTION
| JOYHATMOTION
| OTHER.

Definition K_ESCAPE : Z := 27.
Definition K_k : Z := 107.

(** A [pygame.joystick.Joystick]: what its methods answer, or raise, while
    one call of [notify] runs. *)
Record Joystick : Type := {
  get_button : Z -> result bool;
  get_numaxes : result Z;
  get_axis : Z -> result R;
  get_hat : Z -> result (Z * Z)
}.

(** The devices as pygame sees them during the call: [joysticks] lists
    [pygame.joystick.Joystick(0)], [Joystick(1)], ...; [mouse_pos] is what
    [pygame.mouse.get_pos()] returns. *)
Record devices : Type := {
  joysticks : list Joystick;
  mouse_pos : Z * Z
}.
End pygame.

Module controller.
Import Py events.

Module InputController.

(** The attributes of the controller that its methods read or write.
    [event_manager] is only posted to: the events handed to its [post] are
    recorded, in order, in [posted] below. *)
Record t : Type := make {
  joystick : option pygame.Joystick;
  joystick_count : Z
}.

(** [__init__]: the controller registers itself, under its identity
    [listener], and starts without a game pad; [joystick_count] is
    [pygame.joystick.get_count()]. *)
Definition init (listener : Listener) (event_manager : EventManager.t)
    (pg : pygame.devices) : t * EventManager.t :=
  let event_manager := EventManager.register_listener listener event_manager in
  (make None (Z.of_nat (List.length (pygame.joysticks pg))), event_manager).

(** What a method of the controller works on: the controller itself, the
    events posted to the event manager so far, and pygame's event queue. *)
Record world : Type := {
  self : t;
  posted : list Event;
  pending : list pygame.event
}.

(** A method body: it changes the world and returns a value or raises. *)
Definition M (A : Type) : Type := world -> world * result A.

Definition ret {A} (a : A) : M A := fun w => (w, Ok a).

Definition raise {A} (e : exn) : M A := fun w => (w, Raise e).

Definition lift {A} (r : result A) : M A := fun w => (w, r).

Definition bind {A B} (m : M A) (k : A -> M B) : M B :=
  fun w =>
    match m w with
    | (w', Ok a) => k a w'
    | (w', Raise e) => (w', Raise e)
    end.

Notation "x <~ c ;; k" := (bind c (fun x => k))
  (at level 61, c at next level, right associativity).
Notation "c ;;; k" := (bind c (fun _ => k))
  (at level 61, right associativity).

(** [self.event_manager.post(ev)]: the event is recorded; the call is taken
    to return, whatever the listeners of the manager do with the event. *)
Definition post (ev : Event) : M unit :=
  fun w => ({| self := self w; posted := posted w ++ [ev];
               pending := pending w |}, Ok tt).

(** [pygame.event.get()]: the queue is handed over and left empty. *)
Definition event_get : M (list pygame.event) :=
  fun w => ({| self := self w; posted := posted w; pending := [] |},
            Ok (pending w)).

Definition get_self : M t := fun w => (w, Ok (self w)).

(** [self.joystick = joystick] *)
Definition set_joystick (joystick : pygame.Joystick) : M unit :=
  fun w => ({| self := make (Some joystick) (joystick_count (self w));
               posted := posted w; pending := pending w |}, Ok tt).

(** [for x in xs: body] *)
Fixpoint for_each {A} (xs : list A) (body : A -> M unit) : M unit :=
  match xs with
  | [] => ret tt
  | x :: rest => body x ;;; for_each rest body
  end.

Section Methods.
Variable pg : pygame.devices.

(** [pygame.joystick.Joystick(i)] *)
Definition Joystick (i : Z) : M pygame.Joystick :=
  match nth_error (pygame.joysticks pg) (Z.to_nat i) with
  | Some joystick => ret joystick
  | None => raise pygame.error
  end.

(** The loop of [init_right_joystick]; its [return] ends the loop. *)
Fixpoint init_right_joystick_loop (indices : list Z) : M unit :=
  match indices with
  | [] => ret tt
  | i :: rest =>
      joystick <~ Joystick i ;;
      pressed <~ lift (pygame.get_button joystick 7) ;;
      if pressed : bool then set_joystick joystick
      else init_right_joystick_loop rest
  end.

(** [init_right_joystick] *)
Definition init_right_joystick : M unit :=
  me <~ get_self ;;
  init_right_joystick_loop (range (joystick_count me)).

(** [get_axis_pos] *)
Definition get_axis_pos : M (R * R) :=
  let horiz_axis_pos := 0%R in
  let vert_axis_pos := 0%R in
  me <~ get_self ;;
  match joystick me with
  | None => ret (horiz_axis_pos, vert_axis_pos)
  | Some j =>
      numaxes <~ lift (pygame.get_numaxes j) ;;
      if (3 <? numaxes)%Z then
        horiz_axis_pos <~ lift (pygame.get_axis j 2) ;;
        vert_axis_pos <~ lift (pygame.get_axis j 3) ;;
        ret (horiz_axis_pos, vert_axis_pos)
      else ret (horiz_axis_pos, vert_axis_pos)
  end.

(** [abs(pos) > offset_value_for_attack_req], the offset being 0.5. *)
Definition beyond_offset (pos : R) : bool :=
  if Rlt_dec (5 / 10) (Rabs pos) then true else false.

(** The body of [for event in pygame.event.get()]: its eight [if]
    statements, one after the other.  With [self.joystick] being [None],
    [self.joystick.get_button] and [self.joystick.get_hat] raise
    [AttributeError]; the tuple [get_hat] returns counts as true. *)
Definition handle (event : pygame.event) : M unit :=
  match event with
  | pygame.VIDEORESIZE w h => post (ResizeWindowEvent w h)
  | _ => ret tt
  end ;;;
  match event with
  | pygame.QUIT => post QuitEvent
  | _ => ret tt
  end ;;;
  match event with
  | pygame.KEYDOWN key =>
      if (key =? pygame.K_ESCAPE)%Z then post QuitEvent else ret tt
  | _ => ret tt
  end ;;;
  (me <~ get_self ;;
   match joystick me with
   | Some _ => ret tt
   | None =>
       init_right_joystick ;;;
       match event with
       | pygame.KEYDOWN key => post (KeyPressed key)
       | _ => ret tt
       end ;;;
       match event with
       | pygame.KEYUP key => post (KeyReleased key)
       | _ => ret tt
       end ;;;
       match event with
       | pygame.MOUSEMOTION =>
           let '(direction_X, direction_Y) := pygame.mouse_pos pg in
           post (MouseMoved direction_X direction_Y)
       | _ => ret tt
       end ;;;
       match event with
       | pygame.MOUSEBUTTONDOWN => post MouseButtonDown
       | _ => ret tt
       end
   end) ;;;
  match event with
  | pygame.JOYBUTTONDOWN =>
      me <~ get_self ;;
      match joystick me with
      | None => raise AttributeError
      | Some j =>
          start <~ lift (pygame.get_button j 7) ;;
          if start : bool then
            back <~ lift (pygame.get_button j 6) ;;
            if back : bool then post (KeyPressed pygame.K_k) else ret tt
          else ret tt
      end
  | _ => ret tt
  end ;;;
  match event with
  | pygame.JOYAXISMOTION =>
      pos <~ get_axis_pos ;;
      post (AxisMoved (fst pos) (snd pos))
  | _ => ret tt
  end ;;;
  match event with
  | pygame.JOYHATMOTION =>
      me <~ get_self ;;
      match joystick me with
      | None => raise AttributeError
      | Some j =>
          _ <~ lift (pygame.get_hat j 0) ;;
          hat <~ lift (pygame.get_hat j 0) ;;
          post (HatMoved (fst hat) (snd hat))
      end
  | _ => ret tt
  end.

(** The statement after the loop: the attack request of the second stick. *)
Definition attack_request : M unit :=
  me <~ get_self ;;
  match joystick me with
  | None => ret tt
  | Some j =>
      numaxes <~ lift (pygame.get_numaxes j) ;;
      if (3 <? numaxes)%Z then
        pos <~ get_axis_pos ;;
        if beyond_offset (fst pos) || beyond_offset (snd pos)
        then post MouseButtonDown
        else ret tt
      else ret tt
  end.

(** [notify] *)
Definition notify (event : Event) : M unit :=
  match event with
  | TickEvent _ =>
      events <~ event_get ;;
      for_each events handle ;;;
      attack_request
  | _ => ret tt
  end.
End Methods.



(** What [handle] posts for one queue entry once a game pad is chosen whose
    buttons 7 and 6 answer [start] and [back], whose second stick is at
    [stick] and whose hat is at [hat]. *)
Definition pad_posts (start back : bool) (stick : R * R) (hat : Z * Z)
    (event : pygame.event) : list Event :=
  match event with
  | pygame.VIDEORESIZE w h => [ResizeWindowEvent w h]
  | pygame.QUIT => [QuitEvent]
  | pygame.KEYDOWN key =>
      if (key =? pygame.K_ESCAPE)%Z then [QuitEvent] else []
  | pygame.JOYBUTTONDOWN =>
      if start && back then [KeyPressed pygame.K_k] else []
  | pygame.JOYAXISMOTION => [AxisMoved (fst stick) (snd stick)]
  | pygame.JOYHATMOTION => [HatMoved (fst hat) (snd hat)]
  | _ => []
  end.

End InputController.
End controller.

(** * Properties *)

(** ** Vector helpers *)

Module VectorFacts.
Import Py chaosparticle.
Local Open Scope R_scope.

Lemma is_origin_true (v : Vector2) : is_origin v = true <-> v = (0, 0).
Proof.
  destruct v as [x y]; unfold is_origin; simpl.
  destruct (Req_dec_T x 0) as [Hx | Hx], (Req_dec_T y 0) as [Hy | Hy];
    simpl; split; intro H; try discriminate; subst; try reflexivity;
    inversion H; contradiction.
Qed.

Lemma is_origin_false (v : Vector2) : v <> (0, 0) -> is_origin v = false.
Proof.
  intro H. destruct (is_origin v) eqn:E; [|reflexivity].
  apply is_origin_true in E. contradiction.
Qed.

Lemma sum_squares_pos (x y : R) : (x, y) <> (0, 0) -> 0 < x * x + y * y.
Proof.
  intro H.
  destruct (Req_dec_T x 0) as [Hx | Hx].
  - destruct (Req_dec_T y 0) as [Hy | Hy].
    + subst. contradiction.
    + nra.
  - nra.
Qed.

Lemma norm_pos (v : Vector2) : v <> (0, 0) -> 0 < norm v.
Proof.
  destruct v as [x y]; intro H. unfold norm; simpl.
  apply sqrt_lt_R0, sum_squares_pos, H.
Qed.

Lemma norm_square (v : Vector2) :
  norm v * norm v = fst v * fst v + snd v * snd v.
Proof. unfold norm. apply sqrt_sqrt. nra. Qed.

Lemma get_normalized_origin : get_normalized (0, 0) = None.
Proof.
  unfold get_normalized.
  replace (is_origin (0, 0)) with true; [reflexivity|].
  symmetry. apply is_origin_true. reflexivity.
Qed.

Lemma get_normalized_nonzero (v : Vector2) :
  v <> (0, 0) ->
  get_normalized v = Some (fst v / norm v, snd v / norm v).
Proof.
  intro H. unfold get_normalized. rewrite (is_origin_false v H). reflexivity.
Qed.

(** The norm of a vector scaled by a non-negative factor. *)
Lemma norm_of_components (a b n : R) :
  0 <= n -> a * a + b * b = n * n -> norm (a, b) = n.
Proof.
  intros Hn H. unfold norm; simpl. rewrite H. apply sqrt_square, Hn.
Qed.

Lemma get_rotated_vector_nonzero (v : Vector2) (angle : R) :
  v <> (0, 0) -> get_rotated_vector v angle = Ok (rotated v angle).
Proof.
  intro H. unfold get_rotated_vector.
  rewrite (get_normalized_nonzero v H). reflexivity.
Qed.

Lemma get_rotated_vector_origin (angle : R) :
  get_rotated_vector (0, 0) angle = Raise TypeError.
Proof.
  unfold get_rotated_vector. rewrite get_normalized_origin. reflexivity.
Qed.



Lemma rotated_norm (v : Vector2) (angle : R) :
  v <> (0, 0) -> norm (rotated v angle) = norm v.
Proof.
  intro H. pose proof (norm_pos v H) as Hn.
  pose proof (norm_square v) as Hsq.
  pose proof (sin2_cos2 angle) as Hsc. unfold Rsqr in Hsc.
  unfold rotated. apply norm_of_components; [lra|].
  set (n := norm v) in *. set (x := fst v) in *. set (y := snd v) in *.
  set (s := sin angle) in *. set (c := cos angle) in *.
  replace ((x / n * c - y / n * s) * n) with (x * c - y * s)
    by (field; lra).
  replace ((x / n * s + y / n * c) * n) with (x * s + y * c)
    by (field; lra).
  rewrite Hsq.
  replace ((x * c - y * s) * (x * c - y * s)
           + (x * s + y * c) * (x * s + y * c))
    with ((x * x + y * y) * (s * s + c * c)) by ring.
  rewrite Hsc. ring.
Qed.

(** C4.  Over the reals, rotating a vector other than (0, 0) by any angle
    succeeds and gives a vector of exactly the same norm. *)
Theorem get_rotated_vector_norm (v : Vector2) (angle : R) :
  v <> (0, 0) ->
  exists r : Vector2,
    get_rotated_vector v angle = Ok r /\ norm r = norm v.
Proof.
  intro H. exists (rotated v angle).
  split; [apply get_rotated_vector_nonzero, H | apply rotated_norm, H].
Qed.

Lemma get_rotated_vector_norm_witness :
  exists r : Vector2,
    get_rotated_vector (3, 4) 1 = Ok r /\ norm r = norm (3, 4).
Proof.
  apply (get_rotated_vector_norm (3, 4) 1).
  intro H. inversion H. lra.
Defined.

End VectorFacts.

(** ** Normalisation in binary64 *)

Module Binary64Facts.
Import Floats chaosparticle_binary64.
Local Open Scope float_scope.


End Binary64Facts.

(** ** Emitter *)

Module EmitterFacts.
Import Py chaosparticle VectorFacts.
Local Open Scope R_scope.

(** *** Construction *)

Lemma spawn_nonzero amount life position velocity acceleration indices acc :
  velocity <> (0, 0) ->
  Emitter.spawn amount life position velocity acceleration indices acc =
    Ok (acc ++ map (fun p => Particle.make life position
                               (rotated velocity (Emitter.spawn_angle amount p)) acceleration)
                   indices).
Proof.
  intro H. revert acc.
  induction indices as [|p rest IH]; intro acc; simpl.
  - now rewrite app_nil_r.
  - rewrite (get_rotated_vector_nonzero velocity _ H). simpl.
    rewrite IH, <- app_assoc. reflexivity.
Qed.

Lemma spawn_origin amount life position acceleration p rest acc :
  Emitter.spawn amount life position (0, 0) acceleration (p :: rest) acc =
    Raise TypeError.
Proof. simpl. rewrite get_rotated_vector_origin. reflexivity. Qed.

Lemma range_length (n : Z) : List.length (range n) = Z.to_nat n.
Proof. unfold range. now rewrite length_map, length_seq. Qed.

Lemma range_nonpositive (n : Z) : (n <= 0)%Z -> range n = [].
Proof.
  intro H. unfold range. replace (Z.to_nat n) with 0%nat by lia. reflexivity.
Qed.

Lemma range_positive (n : Z) :
  (0 < n)%Z -> exists rest, range n = 0%Z :: rest.
Proof.
  intro H. unfold range.
  destruct (Z.to_nat n) as [|k] eqn:E; [lia|].
  simpl. eexists. reflexivity.
Qed.

Lemma init_nonzero position amount life velocity acceleration :
  velocity <> (0, 0) ->
  Emitter.init position amount life velocity acceleration =
    Ok (Emitter.make
          (map (fun p => Particle.make life position
                           (rotated velocity (Emitter.spawn_angle amount p)) acceleration)
               (range amount))
          life position).
Proof.
  intro H. unfold Emitter.init. rewrite (spawn_nonzero _ _ _ _ _ _ _ H).
  reflexivity.
Qed.

Lemma init_no_particles position amount life velocity acceleration :
  (amount <= 0)%Z ->
  Emitter.init position amount life velocity acceleration =
    Ok (Emitter.make [] life position).
Proof.
  intro H. unfold Emitter.init. rewrite (range_nonpositive _ H). reflexivity.
Qed.

Lemma init_origin position amount life acceleration :
  (0 < amount)%Z ->
  Emitter.init position amount life (0, 0) acceleration = Raise TypeError.
Proof.
  intro H. unfold Emitter.init.
  destruct (range_positive _ H) as [rest ->].
  rewrite spawn_origin. reflexivity.
Qed.

(** C3, as the code has it.  Construction fails exactly when the base
    velocity is (0, 0) and at least one particle is asked for; the failure
    is the [TypeError] of unpacking [None].  In every other case, an
    amount of zero or less included, an emitter is built. *)
Theorem init_fails_iff position amount life velocity acceleration :
  (velocity = (0, 0) /\ (0 < amount)%Z ->
   Emitter.init position amount life velocity acceleration
     = Raise TypeError) /\
  (~ (velocity = (0, 0) /\ (0 < amount)%Z) ->
   exists e, Emitter.init position amount life velocity acceleration = Ok e).
Proof.
  split.
  - intros [-> H]. apply init_origin, H.
  - intro H.
    destruct (Z_lt_le_dec 0 amount) as [Hpos | Hle].
    + eexists. apply init_nonzero. intro Hv. apply H. split; assumption.
    + eexists. apply init_no_particles, Hle.
Qed.

Lemma init_fails_iff_witness :
  Emitter.init (2, 3) 1 7 (0, 0) (0, -1) = Raise TypeError /\
  exists e, Emitter.init (2, 3) 0 7 (0, 0) (0, -1) = Ok e.
Proof.
  split.
  - apply (init_fails_iff (2, 3) 1 7 (0, 0) (0, -1)).
    split; [reflexivity | lia].
  - apply (init_fails_iff (2, 3) 0 7 (0, 0) (0, -1)).
    intros [_ H]. lia.
Defined.

(** C3, as stated, fails: with [amount = 0] (and also with a negative
    amount) and a base velocity other than (0, 0) the constructor returns
    an emitter without particles; no [InvalidConfiguration] is raised. *)
Lemma init_zero_amount_succeeds :
  (0 <= 0)%Z /\
  Emitter.init (2, 3) 0 7 (1, 0) (0, -1) = Ok (Emitter.make [] 7 (2, 3)) /\
  Emitter.init (2, 3) 0 7 (1, 0) (0, -1)
    <> Raise "InvalidConfiguration"%string.
Proof.
  split; [lia|].
  rewrite init_no_particles by lia.
  split; [reflexivity | discriminate].
Qed.

(** *** The update operations *)

Lemma update_loop_raises particle rest done :
  Emitter.update_loop (particle :: rest) done =
    (done ++ particle :: rest, Some AttributeError).
Proof. reflexivity. Qed.

Lemma update_nonempty (e : Emitter.t) :
  Emitter.particles e <> [] ->
  Emitter.update e =
    (Emitter.set_life (Emitter.life e - 1)%Z e, Some AttributeError).
Proof.
  destruct e as [[|p ps] l pos]; intro H; [contradiction|]. reflexivity.
Qed.

Lemma update_empty (e : Emitter.t) :
  Emitter.particles e = [] ->
  Emitter.update e = (Emitter.set_life (Emitter.life e - 1)%Z e, None).
Proof. destruct e as [ps l pos]; simpl; intros ->. reflexivity. Qed.

Lemma update_state (e : Emitter.t) :
  fst (Emitter.update e) = Emitter.set_life (Emitter.life e - 1)%Z e.
Proof.
  destruct (Emitter.particles e) as [|p ps] eqn:E.
  - now rewrite update_empty.
  - rewrite update_nonempty; [reflexivity | now rewrite E].
Qed.

(** C2, on the code.  For an emitter with one particle, [update] lowers
    the emitter's life from 5 to 4 and then stops with [AttributeError] at
    [particle.move()], a method the class [Particle] does not define; the
    particle has neither moved nor aged. *)
Theorem update_raises_AttributeError :
  Emitter.update
    (Emitter.make [Particle.make 5 (2, 3) (0, 1) (0, -1)] 5 (2, 3)) =
  (Emitter.make [Particle.make 5 (2, 3) (0, 1) (0, -1)] 4 (2, 3),
   Some AttributeError).
Proof. reflexivity. Qed.

Lemma apply_operation_length op (e : Emitter.t) :
  List.length (Emitter.particles (Emitter.apply_operation op e)) =
  List.length (Emitter.particles e).
Proof.
  destruct op; simpl.
  - rewrite update_state. reflexivity.
  - apply length_map.
  - apply length_map.
  - apply length_map.
Qed.

Lemma run_length ops (e : Emitter.t) :
  List.length (Emitter.particles (Emitter.run ops e)) =
  List.length (Emitter.particles e).
Proof.
  revert e. unfold Emitter.run.
  induction ops as [|op ops IH]; intro e; simpl; [reflexivity|].
  rewrite IH. apply apply_operation_length.
Qed.

Lemma init_length position amount life velocity acceleration e :
  Emitter.init position amount life velocity acceleration = Ok e ->
  List.length (Emitter.particles e) = Z.to_nat amount.
Proof.
  intro H.
  destruct (Z_lt_le_dec 0 amount) as [Hpos | Hle].
  - destruct (is_origin velocity) eqn:Ho.
    + apply is_origin_true in Ho. subst velocity.
      rewrite init_origin in H by assumption. discriminate.
    + assert (Hv : velocity <> (0, 0)).
      { intro Hv. apply is_origin_true in Hv. congruence. }
      rewrite init_nonzero in H by assumption.
      injection H as <-. simpl. rewrite length_map. apply range_length.
  - rewrite init_no_particles in H by assumption.
    injection H as <-. simpl. lia.
Qed.

(** C9, as the code has it.  An emitter constructed for [amount] particles
    holds [Z.to_nat amount] of them: exactly [amount] when [0 <= amount],
    and none when [amount] is negative.  It still holds as many after any
    sequence of the four update operations: each of them leaves the length
    of [particles] as it was. *)
Theorem particle_count_fixed position amount life velocity acceleration e
    (ops : list Emitter.operation) :
  Emitter.init position amount life velocity acceleration = Ok e ->
  List.length (Emitter.particles (Emitter.run ops e)) = Z.to_nat amount /\
  ((0 <= amount)%Z ->
   Z.of_nat (List.length (Emitter.particles (Emitter.run ops e))) = amount) /\
  forall op e',
    List.length (Emitter.particles (Emitter.apply_operation op e')) =
    List.length (Emitter.particles e').
Proof.
  intro H. rewrite run_length, (init_length _ _ _ _ _ _ H).
  split; [reflexivity|]. split; [lia|]. apply apply_operation_length.
Qed.

Lemma particle_count_fixed_witness :
  exists e,
    Emitter.init (2, 3) 2 7 (0, 1) (0, -1) = Ok e /\
    List.length
      (Emitter.particles
         (Emitter.run [Emitter.Update; Emitter.UpdateVelocity;
                       Emitter.UpdatePosition; Emitter.UpdateLife] e))
    = 2%nat.
Proof.
  assert (H : (0, 1) <> (0, 0) :> Vector2) by (intro H; inversion H; lra).
  pose proof (init_nonzero (2, 3) 2 7 (0, 1) (0, -1) H) as Hinit.
  eexists. split; [exact Hinit|].
  exact (proj1 (particle_count_fixed (2, 3) 2 7 (0, 1) (0, -1) _
                  [Emitter.Update; Emitter.UpdateVelocity;
                   Emitter.UpdatePosition; Emitter.UpdateLife] Hinit)).
Defined.

(** C9, as stated, fails: with [amount = -3] the constructor succeeds, the
    loop over [range(-3)] runs no round, and the emitter has no particle,
    not -3 of them. *)
Lemma init_negative_amount_empty :
  Emitter.init (2, 3) (-3) 7 (0, 1) (0, -1) = Ok (Emitter.make [] 7 (2, 3)) /\
  Z.of_nat (List.length (Emitter.particles (Emitter.make [] 7 (2, 3))))
    <> (-3)%Z.
Proof.
  split; [apply init_no_particles; lia | simpl; lia].
Qed.

(** C10.  [update_velocity], [update_position] and [update_life] leave the
    emitter's own [life] and [position] as they are, and in every particle
    all fields but the one they are named after; [update] is the one that
    lowers the emitter's [life], by one. *)
Theorem partial_updates_frame (e : Emitter.t) :
  (Emitter.life (Emitter.update_velocity e) = Emitter.life e /\
   Emitter.position (Emitter.update_velocity e) = Emitter.position e /\
   map Particle.life (Emitter.particles (Emitter.update_velocity e))
     = map Particle.life (Emitter.particles e) /\
   map Particle.position (Emitter.particles (Emitter.update_velocity e))
     = map Particle.position (Emitter.particles e) /\
   map Particle.acceleration (Emitter.particles (Emitter.update_velocity e))
     = map Particle.acceleration (Emitter.particles e)) /\
  (Emitter.life (Emitter.update_position e) = Emitter.life e /\
   Emitter.position (Emitter.update_position e) = Emitter.position e /\
   map Particle.life (Emitter.particles (Emitter.update_position e))
     = map Particle.life (Emitter.particles e) /\
   map Particle.velocity (Emitter.particles (Emitter.update_position e))
     = map Particle.velocity (Emitter.particles e) /\
   map Particle.acceleration (Emitter.particles (Emitter.update_position e))
     = map Particle.acceleration (Emitter.particles e)) /\
  (Emitter.life (Emitter.update_life e) = Emitter.life e /\
   Emitter.position (Emitter.update_life e) = Emitter.position e /\
   map Particle.position (Emitter.particles (Emitter.update_life e))
     = map Particle.position (Emitter.particles e) /\
   map Particle.velocity (Emitter.particles (Emitter.update_life e))
     = map Particle.velocity (Emitter.particles e) /\
   map Particle.acceleration (Emitter.particles (Emitter.update_life e))
     = map Particle.acceleration (Emitter.particles e)) /\
  Emitter.life (fst (Emitter.update e)) = (Emitter.life e - 1)%Z.
Proof.
  repeat split; simpl; try (rewrite map_map; reflexivity).
  rewrite update_state. reflexivity.
Qed.

(** C8.  When every particle has velocity (1, 0) and acceleration (0, 1),
    [update_velocity] followed by [update_position] leaves every particle
    with velocity (1, 1) and with its old position plus (1, 1); life and
    acceleration are as before. *)
Theorem velocity_then_position (e : Emitter.t) :
  (forall p, In p (Emitter.particles e) ->
             Particle.velocity p = (1, 0) /\
             Particle.acceleration p = (0, 1)) ->
  Emitter.particles (Emitter.update_position (Emitter.update_velocity e)) =
    map (fun p => Particle.make (Particle.life p)
                    (fst (Particle.position p) + 1,
                     snd (Particle.position p) + 1)
                    (1, 1) (Particle.acceleration p))
        (Emitter.particles e).
Proof.
  intro H. simpl. rewrite map_map. apply map_ext_in.
  intros p Hp. destruct (H p Hp) as [Hv Ha].
  destruct p as [l pos v a]; simpl in *. subst v a.
  unfold Particle.set_position, Particle.set_velocity, array_add; simpl.
  f_equal; f_equal; lra.
Qed.

Lemma velocity_then_position_witness :
  Emitter.particles
    (Emitter.update_position
       (Emitter.update_velocity
          (Emitter.make [Particle.make 9 (2, 3) (1, 0) (0, 1);
                         Particle.make 4 (5, 5) (1, 0) (0, 1)] 9 (2, 3)))) =
  [Particle.make 9 (2 + 1, 3 + 1) (1, 1) (0, 1);
   Particle.make 4 (5 + 1, 5 + 1) (1, 1) (0, 1)].
Proof.
  apply (velocity_then_position
           (Emitter.make [Particle.make 9 (2, 3) (1, 0) (0, 1);
                          Particle.make 4 (5, 5) (1, 0) (0, 1)] 9 (2, 3))).
  simpl. intros p [<- | [<- | []]]; split; reflexivity.
Defined.

(** *** The fan of velocities *)

Lemma PI_below_ten_thirds : PI < 10 / 3.
Proof.
  destruct (PI_ineq 3) as [_ H].
  unfold sum_f_R0, tg_alt, PI_tg in H. simpl in H. lra.
Qed.

Lemma PI_above_three : 3 < PI.
Proof. pose proof PI2_3_2. lra. Qed.

(** 30 radians lie between 9 and 10 half turns, where the sine is
    negative. *)
Lemma sin_30_negative : sin 30 < 0.
Proof.
  replace 30 with ((30 - 10 * PI) + 2 * INR 5 * PI) by (simpl; ring).
  rewrite sin_period.
  pose proof PI_below_ten_thirds. pose proof PI_above_three.
  apply sin_lt_0_var; lra.
Qed.

Lemma norm_up : norm (0, 1) = 1.
Proof. apply norm_of_components; lra. Qed.

Lemma rotated_up (angle : R) : rotated (0, 1) angle = (- sin angle, cos angle).
Proof. unfold rotated. rewrite norm_up. simpl. f_equal; field. Qed.

Lemma spawn_angle_five (p : Z) :
  Emitter.spawn_angle 5 p = IZR (30 * p - 60).
Proof. unfold Emitter.spawn_angle. rewrite minus_IZR. simpl. lra. Qed.

(** C1, on the code.  With [amount = 5] and base velocity (0, 1) the
    constructor succeeds and the five velocities have norm 1, but they are
    the rotations of (0, 1) by -60, -30, 0, 30 and 60 radians: the angle
    counted in degrees goes to [math.sin] and [math.cos] as it is.  The
    particle of index 3, for one, points to the right ([- sin 30 > 0])
    where a turn by 30 degrees points to the left ([- sin (PI/6) = -1/2]). *)
Theorem fan_of_five_in_radians position life acceleration :
  exists e,
    Emitter.init position 5 life (0, 1) acceleration = Ok e /\
    map Particle.velocity (Emitter.particles e) =
      map (fun a => rotated (0, 1) (IZR a)) [-60; -30; 0; 30; 60]%Z /\
    Forall (fun v => norm v = 1) (map Particle.velocity (Emitter.particles e)) /\
    0 < fst (nth 3 (map Particle.velocity (Emitter.particles e)) (0, 0)) /\
    fst (rotated (0, 1) (30 * (PI / 180))) = - (1 / 2) /\
    nth 3 (map Particle.velocity (Emitter.particles e)) (0, 0)
      <> rotated (0, 1) (30 * (PI / 180)).
Proof.
  assert (Hup : (0, 1) <> (0, 0) :> Vector2) by (intro H; inversion H; lra).
  assert (Hvel :
    map Particle.velocity
      (map (fun p => Particle.make life position
                       (rotated (0, 1) (Emitter.spawn_angle 5 p))
                       acceleration) (range 5)) =
    map (fun a => rotated (0, 1) (IZR a)) [-60; -30; 0; 30; 60]%Z).
  { rewrite map_map. simpl. now rewrite !spawn_angle_five. }
  assert (Hdeg : fst (rotated (0, 1) (30 * (PI / 180))) = - (1 / 2)).
  { rewrite rotated_up. simpl.
    replace (30 * (PI / 180)) with (PI / 6) by field.
    rewrite sin_PI6. reflexivity. }
  assert (Hrad : 0 < fst (rotated (0, 1) 30)).
  { rewrite rotated_up. simpl. pose proof sin_30_negative. lra. }
  eexists. split; [apply init_nonzero, Hup|].
  cbn [Emitter.particles]. rewrite Hvel.
  split; [reflexivity|]. split; [|split; [|split]].
  - apply Forall_forall. intros v Hv. apply in_map_iff in Hv.
    destruct Hv as [a [<- _]].
    rewrite (rotated_norm _ _ Hup). apply norm_up.
  - exact Hrad.
  - exact Hdeg.
  - simpl. intro Heq. rewrite <- Heq in Hdeg. lra.
Qed.

End EmitterFacts.

(** ** Event manager *)

Module ManagerFacts.
Import Py events.
Import WeakKeyDictionary EventManager.

(** *** The dictionary *)

Lemma contains_In (key : Listener) (d : WeakKeyDictionary.t) :
  contains key d = true <-> In key (keys d).
Proof.
  unfold contains. rewrite existsb_exists. split.
  - intros [k [Hin Heq]]. apply Nat.eqb_eq in Heq. now subst.
  - intro Hin. exists key. split; [assumption | apply Nat.eqb_refl].
Qed.

Lemma contains_not_In (key : Listener) (d : WeakKeyDictionary.t) :
  contains key d = false <-> ~ In key (keys d).
Proof.
  rewrite <- contains_In. destruct (contains key d); split; intro H;
    try reflexivity; try discriminate; congruence.
Qed.

Lemma contains_setitem (key : Listener) (d : WeakKeyDictionary.t) :
  contains key (setitem key d) = true.
Proof.
  unfold setitem. destruct (contains key d) eqn:E; [assumption|].
  apply contains_In. simpl. apply in_or_app. right. now left.
Qed.


Lemma setitem_NoDup (key : Listener) (d : WeakKeyDictionary.t) :
  NoDup (keys d) -> NoDup (keys (setitem key d)).
Proof.
  intro H. unfold setitem. destruct (contains key d) eqn:E; [assumption|].
  simpl. apply contains_not_In in E.
  apply NoDup_app; [assumption | repeat constructor; intros [] |].
  intros x Hx [<- | []]. contradiction.
Qed.

Lemma delitem_NoDup (key : Listener) (d : WeakKeyDictionary.t) :
  NoDup (keys d) -> NoDup (keys (delitem key d)).
Proof. intro H. simpl. apply NoDup_filter, H. Qed.

(** *** Registration *)


Lemma register_listener_registered (listener : Listener)
    (self : EventManager.t) :
  In listener (keys (listeners (register_listener listener self))).
Proof. simpl. apply contains_In, contains_setitem. Qed.

Lemma run_call_NoDup (c : call) (self : EventManager.t) :
  NoDup (keys (listeners self)) ->
  NoDup (keys (listeners (run_call c self))).
Proof.
  intro H. destruct c as [l | l]; simpl.
  - apply setitem_NoDup, H.
  - unfold unregister_listener.
    destruct (contains l (listeners self)); [apply delitem_NoDup|]; exact H.
Qed.

(** The change count never goes down, and stays only where the call has
    left the manager as it was. *)
Lemma run_call_changes (c : call) (self : EventManager.t) :
  (changes (listeners self) <= changes (listeners (run_call c self)))%nat /\
  (changes (listeners (run_call c self)) = changes (listeners self) ->
   run_call c self = self).
Proof.
  destruct self as [d]. destruct c as [l | l]; simpl.
  - unfold register_listener, setitem; simpl.
    destruct (contains l d); simpl; split; try lia; reflexivity.
  - unfold unregister_listener; simpl.
    destruct (contains l d); simpl; split; try lia; reflexivity.
Qed.

Lemma run_calls_changes (cs : list call) (self : EventManager.t) :
  (changes (listeners self) <= changes (listeners (run_calls cs self)))%nat.
Proof.
  revert self. unfold run_calls.
  induction cs as [|c cs IH]; intro self; simpl; [lia|].
  specialize (IH (run_call c self)).
  pose proof (proj1 (run_call_changes c self)). lia.
Qed.

Lemma run_call_idle (c : call) (self : EventManager.t) :
  run_call c self = self <-> idle self c.
Proof.
  destruct self as [d]. destruct c as [l | l]; simpl.
  - unfold register_listener, setitem; simpl.
    rewrite <- contains_In.
    destruct (contains l d) eqn:E; split; intro H; try reflexivity;
      try discriminate.
    injection H as H. destruct d as [ks n]; simpl in *.
    injection H as _ H. lia.
  - unfold unregister_listener; simpl.
    rewrite <- contains_not_In.
    destruct (contains l d) eqn:E; split; intro H; try reflexivity;
      try discriminate.
    injection H as H. destruct d as [ks n]; simpl in *.
    unfold delitem in H; simpl in H. injection H as _ H. lia.
Qed.

Lemma run_calls_idle (cs : list call) (self : EventManager.t) :
  run_calls cs self = self <-> Forall (idle self) cs.
Proof.
  unfold run_calls. induction cs as [|c cs IH]; simpl.
  - split; [constructor | reflexivity].
  - split.
    + intro H.
      assert (Hc : run_call c self = self).
      { apply run_call_changes.
        pose proof (run_calls_changes cs (run_call c self)) as Hle.
        unfold run_calls in Hle. rewrite H in Hle.
        pose proof (proj1 (run_call_changes c self)). lia. }
      rewrite Hc in H. constructor; [now apply run_call_idle | now apply IH].
    + intro H. inversion H as [|c' cs' Hc Hcs]; subst.
      apply run_call_idle in Hc. rewrite Hc. now apply IH.
Qed.

(** *** Delivery *)


Lemma notified_first_failed before e self notified :
  notified_first before (Failed e self notified)
    = Failed e self (before ++ notified).
Proof.
  unfold notified_first.
  induction before as [|l before IH]; cbn [fold_right app]; [reflexivity|].
  now rewrite IH.
Qed.

Section Delivery.
Variable notify : Listener -> Event -> reaction.
Variable event : Event.

Lemma iter_check_intact (d : WeakKeyDictionary.t) :
  iter_check (len d) (changes d) d = Intact.
Proof. unfold iter_check. now rewrite !Nat.eqb_refl. Qed.

(** The loop passes through the listeners that return and leave the
    manager as it is. *)
Lemma post_loop_through (self : EventManager.t) (before rest : list Listener) :
  (forall l, In l before ->
             raised (notify l event) = None /\
             run_calls (calls (notify l event)) self = self) ->
  post_loop notify (len (listeners self)) (changes (listeners self))
            (before ++ rest) event self =
  notified_first before
    (post_loop notify (len (listeners self)) (changes (listeners self))
               rest event self).
Proof.
  induction before as [|l before IH]; intro H; [reflexivity|].
  destruct (H l (or_introl eq_refl)) as [Hr Hc].
  cbn [app post_loop]. rewrite iter_check_intact, Hr, Hc.
  rewrite IH by (intros l' Hl'; apply H; now right).
  reflexivity.
Qed.


End Delivery.







End ManagerFacts.


(** * Further properties of the code *)

(** ** Rotation and normalisation *)

Module RotationFacts.
Import Py chaosparticle VectorFacts.
Local Open Scope R_scope.

Lemma norm_origin : norm (0, 0) = 0.
Proof. apply norm_of_components; lra. Qed.

Lemma norm_positive_nonzero (v : Vector2) : 0 < norm v -> v <> (0, 0).
Proof. intros H ->. rewrite norm_origin in H. lra. Qed.

(** Without the detour through the unit vector. *)
Lemma rotated_components (v : Vector2) (angle : R) :
  v <> (0, 0) ->
  rotated v angle =
    (fst v * cos angle - snd v * sin angle,
     fst v * sin angle + snd v * cos angle).
Proof.
  intro H. pose proof (norm_pos v H). unfold rotated.
  f_equal; field; lra.
Qed.

Lemma rotated_nonzero (v : Vector2) (angle : R) :
  v <> (0, 0) -> rotated v angle <> (0, 0).
Proof.
  intro H. apply norm_positive_nonzero.
  rewrite (rotated_norm v angle H). apply norm_pos, H.
Qed.

Lemma rotated_zero_angle (v : Vector2) : v <> (0, 0) -> rotated v 0 = v.
Proof.
  intro H. rewrite (rotated_components v 0 H), cos_0, sin_0.
  destruct v as [x y]; simpl. f_equal; ring.
Qed.

Lemma rotated_rotated (v : Vector2) (a b : R) :
  v <> (0, 0) -> rotated (rotated v a) b = rotated v (a + b).
Proof.
  intro H.
  rewrite (rotated_components (rotated v a) b (rotated_nonzero v a H)).
  rewrite (rotated_components v a H), (rotated_components v (a + b) H).
  rewrite cos_plus, sin_plus. simpl. f_equal; ring.
Qed.

(** X1.  Rotating a vector other than (0, 0) by the angle 0 gives the vector
    back, exactly. *)
Theorem get_rotated_vector_zero_angle (v : Vector2) :
  v <> (0, 0) -> get_rotated_vector v 0 = Ok v.
Proof.
  intro H. rewrite (get_rotated_vector_nonzero v 0 H).
  now rewrite (rotated_zero_angle v H).
Qed.

Lemma get_rotated_vector_zero_angle_witness :
  get_rotated_vector (3, 4) 0 = Ok (3, 4).
Proof.
  apply (get_rotated_vector_zero_angle (3, 4)).
  intro H. inversion H. lra.
Defined.



(** X3.  [get_rotated_vector] raises exactly for the vector (0, 0), whatever
    the angle, and what it raises is [TypeError]. *)
Theorem get_rotated_vector_raises_iff (v : Vector2) (angle : R) :
  ((exists e, get_rotated_vector v angle = Raise e) <-> v = (0, 0)) /\
  forall e, get_rotated_vector v angle = Raise e -> e = TypeError.
Proof.
  destruct (is_origin v) eqn:Ho.
  - apply is_origin_true in Ho. subst v.
    rewrite get_rotated_vector_origin. split.
    + split; [reflexivity | intros _; eexists; reflexivity].
    + intros e He. now injection He as <-.
  - assert (Hv : v <> (0, 0)).
    { intro Hv. apply is_origin_true in Hv. congruence. }
    rewrite (get_rotated_vector_nonzero v angle Hv). split.
    + split; [intros [e He]; discriminate | contradiction].
    + intros e He. discriminate.
Qed.

Lemma get_rotated_vector_raises_iff_witness :
  exists e, get_rotated_vector (0, 0) 1 = Raise e.
Proof.
  apply (get_rotated_vector_raises_iff (0, 0) 1). reflexivity.
Defined.

(** X4.  Over the reals, normalising twice is normalising once: the unit
    vector that [get_normalized] returns is its own normalisation.  (In
    binary64 the second pass can move the last digit.) *)
Theorem get_normalized_idempotent (v u : Vector2) :
  get_normalized v = Some u -> get_normalized u = Some u.
Proof.
  intro H.
  destruct (is_origin v) eqn:Ho.
  - apply is_origin_true in Ho. subst v.
    rewrite get_normalized_origin in H. discriminate.
  - assert (Hv : v <> (0, 0)).
    { intro Hv. apply is_origin_true in Hv. congruence. }
    rewrite (get_normalized_nonzero v Hv) in H. injection H as <-.
    pose proof (norm_pos v Hv) as Hn. pose proof (norm_square v) as Hsq.
    assert (Hu : norm (fst v / norm v, snd v / norm v) = 1).
    { apply norm_of_components; [lra|].
      transitivity ((fst v * fst v + snd v * snd v) / (norm v * norm v)).
      - field. lra.
      - rewrite <- Hsq. field. lra. }
    rewrite get_normalized_nonzero.
    + rewrite Hu. simpl. apply f_equal, injective_projections; simpl; field; lra.
    + apply norm_positive_nonzero. rewrite Hu. lra.
Qed.

Lemma get_normalized_idempotent_witness :
  get_normalized (0, 2) = Some (0 / norm (0, 2), 2 / norm (0, 2)) /\
  get_normalized (0 / norm (0, 2), 2 / norm (0, 2))
    = Some (0 / norm (0, 2), 2 / norm (0, 2)).
Proof.
  assert (H : get_normalized (0, 2) = Some (0 / norm (0, 2), 2 / norm (0, 2))).
  { apply (get_normalized_nonzero (0, 2)). intro H. inversion H. lra. }
  split; [exact H|].
  exact (get_normalized_idempotent (0, 2) _ H).
Defined.



End RotationFacts.

(** ** The fan of an emitter *)

Module FanFacts.
Import Py chaosparticle VectorFacts EmitterFacts RotationFacts.
Local Open Scope R_scope.

Lemma nth_error_range (n : Z) (p : nat) :
  nth_error (range n) p =
    if (p <? Z.to_nat n)%nat then Some (Z.of_nat p) else None.
Proof.
  unfold range. rewrite nth_error_map, nth_error_seq.
  destruct (p <? Z.to_nat n)%nat; reflexivity.
Qed.

(** The particle of index [p] of a constructed emitter. *)
Lemma init_nth position amount life velocity acceleration e (p : nat) q :
  velocity <> (0, 0) ->
  Emitter.init position amount life velocity acceleration = Ok e ->
  nth_error (Emitter.particles e) p = Some q ->
  (Z.of_nat p < amount)%Z /\
  q = Particle.make life position
        (rotated velocity (Emitter.spawn_angle amount (Z.of_nat p)))
        acceleration.
Proof.
  intros Hv Hinit Hq. rewrite (init_nonzero _ _ _ _ _ Hv) in Hinit.
  injection Hinit as <-. simpl in Hq.
  rewrite nth_error_map, nth_error_range in Hq.
  destruct (p <? Z.to_nat amount)%nat eqn:E; simpl in Hq; [|discriminate].
  apply Nat.ltb_lt in E. injection Hq as <-. split; [lia | reflexivity].
Qed.

Lemma spawn_angle_succ (amount p : Z) :
  Emitter.spawn_angle amount (p + 1) = Emitter.spawn_angle amount p + 30.
Proof.
  unfold Emitter.spawn_angle.
  replace (30 * (p + 1))%Z with (30 * p + 30)%Z by ring.
  rewrite plus_IZR. lra.
Qed.

Lemma spawn_angle_mirror (amount p : Z) :
  Emitter.spawn_angle amount p = - Emitter.spawn_angle amount (amount - 1 - p).
Proof.
  unfold Emitter.spawn_angle.
  rewrite !mult_IZR, !minus_IZR. lra.
Qed.



(** X7.  Over the reals, neighbours in the fan are 30 apart: the velocity
    of each particle is the velocity of the particle before it, turned by
    the angle 30 (which [math.sin] and [math.cos] read in radians). *)
Theorem fan_neighbours position amount life velocity acceleration e
    (p : nat) q q' :
  velocity <> (0, 0) ->
  Emitter.init position amount life velocity acceleration = Ok e ->
  nth_error (Emitter.particles e) p = Some q ->
  nth_error (Emitter.particles e) (S p) = Some q' ->
  get_rotated_vector (Particle.velocity q) 30 = Ok (Particle.velocity q').
Proof.
  intros Hv Hinit Hq Hq'.
  destruct (init_nth _ _ _ _ _ _ _ _ Hv Hinit Hq) as [_ ->].
  destruct (init_nth _ _ _ _ _ _ _ _ Hv Hinit Hq') as [_ ->].
  cbn [Particle.velocity].
  rewrite (get_rotated_vector_nonzero _ 30 (rotated_nonzero _ _ Hv)).
  rewrite (rotated_rotated _ _ _ Hv).
  replace (Z.of_nat (S p)) with (Z.of_nat p + 1)%Z by lia.
  now rewrite spawn_angle_succ.
Qed.

Lemma fan_neighbours_witness :
  get_rotated_vector (rotated (0, 2) (Emitter.spawn_angle 3 0)) 30
    = Ok (rotated (0, 2) (Emitter.spawn_angle 3 1)).
Proof.
  assert (H : (0, 2) <> (0, 0) :> Vector2) by (intro H; inversion H; lra).
  exact (fan_neighbours (2, 3) 3 7 (0, 2) (0, -1) _ 0
           (Particle.make 7 (2, 3) (rotated (0, 2) (Emitter.spawn_angle 3 0))
              (0, -1))
           (Particle.make 7 (2, 3) (rotated (0, 2) (Emitter.spawn_angle 3 1))
              (0, -1))
           H (init_nonzero (2, 3) 3 7 (0, 2) (0, -1) H) eq_refl eq_refl).
Defined.

(** X8.  Over the reals, for an odd amount [2k+1] the middle particle, of
    index [k], has exactly the base velocity: its angle is 0.  (In binary64
    the division by the norm and the multiplication that undoes it can move
    the last digit.) *)
Theorem fan_middle position (k : nat) life velocity acceleration e :
  velocity <> (0, 0) ->
  Emitter.init position (2 * Z.of_nat k + 1) life velocity acceleration
    = Ok e ->
  option_map Particle.velocity (nth_error (Emitter.particles e) k)
    = Some velocity.
Proof.
  intros Hv Hinit.
  destruct (nth_error (Emitter.particles e) k) as [q|] eqn:Hq.
  - destruct (init_nth _ _ _ _ _ _ _ _ Hv Hinit Hq) as [_ ->].
    cbn [option_map Particle.velocity]. f_equal.
    replace (Emitter.spawn_angle (2 * Z.of_nat k + 1) (Z.of_nat k)) with 0.
    + apply rotated_zero_angle, Hv.
    + unfold Emitter.spawn_angle.
      replace (2 * Z.of_nat k + 1 - 1)%Z with (2 * Z.of_nat k)%Z by ring.
      rewrite !mult_IZR. lra.
  - exfalso. apply nth_error_None in Hq.
    pose proof (init_length _ _ _ _ _ _ Hinit) as Hlen. lia.
Qed.

Lemma fan_middle_witness :
  exists e,
    Emitter.init (2, 3) (2 * Z.of_nat 2 + 1) 7 (0, 2) (0, -1) = Ok e /\
    option_map Particle.velocity (nth_error (Emitter.particles e) 2)
      = Some (0, 2).
Proof.
  assert (H : (0, 2) <> (0, 0) :> Vector2) by (intro H; inversion H; lra).
  pose proof (init_nonzero (2, 3) (2 * Z.of_nat 2 + 1) 7 (0, 2) (0, -1) H)
    as Hinit.
  eexists. split; [exact Hinit|].
  exact (fan_middle (2, 3) 2 7 (0, 2) (0, -1) _ H Hinit).
Defined.

(** X9.  The fan is symmetric about the base velocity: the particles of
    index [p] and [amount - 1 - p] are the base velocity turned by opposite
    angles. *)
Theorem fan_symmetric position amount life velocity acceleration e
    (p p' : nat) q q' :
  velocity <> (0, 0) ->
  Emitter.init position amount life velocity acceleration = Ok e ->
  (Z.of_nat p + Z.of_nat p' = amount - 1)%Z ->
  nth_error (Emitter.particles e) p = Some q ->
  nth_error (Emitter.particles e) p' = Some q' ->
  exists angle,
    get_rotated_vector velocity angle = Ok (Particle.velocity q) /\
    get_rotated_vector velocity (- angle) = Ok (Particle.velocity q').
Proof.
  intros Hv Hinit Hsum Hq Hq'.
  destruct (init_nth _ _ _ _ _ _ _ _ Hv Hinit Hq) as [_ ->].
  destruct (init_nth _ _ _ _ _ _ _ _ Hv Hinit Hq') as [_ ->].
  cbn [Particle.velocity].
  exists (Emitter.spawn_angle amount (Z.of_nat p)).
  rewrite !(get_rotated_vector_nonzero _ _ Hv).
  split; [reflexivity|].
  rewrite (spawn_angle_mirror amount (Z.of_nat p)), Ropp_involutive.
  replace (amount - 1 - Z.of_nat p)%Z with (Z.of_nat p') by lia.
  reflexivity.
Qed.

Lemma fan_symmetric_witness :
  exists angle,
    get_rotated_vector (0, 2) angle
      = Ok (rotated (0, 2) (Emitter.spawn_angle 3 0)) /\
    get_rotated_vector (0, 2) (- angle)
      = Ok (rotated (0, 2) (Emitter.spawn_angle 3 2)).
Proof.
  assert (H : (0, 2) <> (0, 0) :> Vector2) by (intro H; inversion H; lra).
  exact (fan_symmetric (2, 3) 3 7 (0, 2) (0, -1) _ 0 2
           (Particle.make 7 (2, 3) (rotated (0, 2) (Emitter.spawn_angle 3 0))
              (0, -1))
           (Particle.make 7 (2, 3) (rotated (0, 2) (Emitter.spawn_angle 3 2))
              (0, -1))
           H (init_nonzero (2, 3) 3 7 (0, 2) (0, -1) H)
           eq_refl eq_refl eq_refl).
Defined.

End FanFacts.

(** ** Sequences of update operations *)

Module UpdateFacts.
Import Py chaosparticle VectorFacts EmitterFacts.
Local Open Scope R_scope.

Lemma run_app ops ops' (e : Emitter.t) :
  Emitter.run (ops ++ ops') e = Emitter.run ops' (Emitter.run ops e).
Proof. unfold Emitter.run. apply fold_left_app. Qed.

Lemma set_particles_same (e : Emitter.t) :
  Emitter.set_particles (Emitter.particles e) e = e.
Proof. now destruct e. Qed.

(** X10.  [update] returns normally exactly for an emitter without
    particles; with particles it ends in [AttributeError].  Either way the
    emitter's life has gone down by one and nothing else has changed. *)
Theorem update_returns_iff_empty (e : Emitter.t) :
  (snd (Emitter.update e) = None <-> Emitter.particles e = []) /\
  (Emitter.particles e <> [] ->
   snd (Emitter.update e) = Some AttributeError) /\
  fst (Emitter.update e) = Emitter.set_life (Emitter.life e - 1)%Z e.
Proof.
  destruct (Emitter.particles e) as [|q qs] eqn:E.
  - rewrite (update_empty e E). simpl. repeat split; congruence.
  - assert (H : Emitter.particles e <> []) by (rewrite E; discriminate).
    rewrite (update_nonempty e H). simpl. repeat split; congruence.
Qed.

Lemma update_returns_iff_empty_witness :
  snd (Emitter.update
         (Emitter.make [Particle.make 5 (2, 3) (0, 1) (0, -1)] 5 (2, 3)))
    = Some AttributeError.
Proof.
  apply (update_returns_iff_empty
           (Emitter.make [Particle.make 5 (2, 3) (0, 1) (0, -1)] 5 (2, 3))).
  simpl. discriminate.
Defined.

(** X11.  Calling [update] [n] times, going on after each exception, lowers
    the emitter's life by [n] and leaves every particle as it was. *)
Theorem update_repeated (n : nat) (e : Emitter.t) :
  Emitter.run (repeat Emitter.Update n) e =
    Emitter.set_life (Emitter.life e - Z.of_nat n)%Z e.
Proof.
  revert e. induction n as [|n IH]; intro e.
  - destruct e as [ps l pos]. unfold Emitter.set_life. simpl.
    now rewrite Z.sub_0_r.
  - change (repeat Emitter.Update (S n))
      with ([Emitter.Update] ++ repeat Emitter.Update n).
    rewrite run_app, IH. unfold Emitter.run at 1. simpl.
    rewrite update_state. destruct e as [ps l pos].
    unfold Emitter.set_life. simpl. f_equal. lia.
Qed.

(** X12.  [n] calls of [update_life] lower the life of every particle by
    [n], below zero if need be, and change nothing else. *)
Theorem update_life_repeated (n : nat) (e : Emitter.t) :
  Emitter.run (repeat Emitter.UpdateLife n) e =
    Emitter.set_particles
      (map (fun q => Particle.set_life (Particle.life q - Z.of_nat n)%Z q)
           (Emitter.particles e)) e.
Proof.
  revert e. induction n as [|n IH]; intro e.
  - unfold Emitter.run. simpl. rewrite <- (set_particles_same e) at 1.
    f_equal. rewrite <- (map_id (Emitter.particles e)) at 1.
    apply map_ext. intros [l p v a]. unfold Particle.set_life. simpl.
    now rewrite Z.sub_0_r.
  - change (repeat Emitter.UpdateLife (S n))
      with ([Emitter.UpdateLife] ++ repeat Emitter.UpdateLife n).
    rewrite run_app, IH. unfold Emitter.run at 1. simpl.
    unfold Emitter.update_life, Emitter.set_particles. simpl.
    f_equal. rewrite map_map. apply map_ext. intros [l p v a].
    unfold Particle.set_life. simpl. f_equal. lia.
Qed.

(** One frame of a caller that accelerates and then moves. *)
Lemma accelerate_move (e : Emitter.t) :
  Emitter.update_position (Emitter.update_velocity e) =
    Emitter.set_particles
      (map (fun q =>
              Particle.make (Particle.life q)
                (array_add (Particle.position q)
                   (array_add (Particle.velocity q) (Particle.acceleration q)))
                (array_add (Particle.velocity q) (Particle.acceleration q))
                (Particle.acceleration q))
           (Emitter.particles e)) e.
Proof.
  unfold Emitter.update_position, Emitter.update_velocity,
    Emitter.set_particles. simpl. now rewrite map_map.
Qed.


(** X14.  Ageing is independent of motion: [update_life] commutes with
    [update_velocity] and with [update_position]. *)
Theorem update_life_commutes (e : Emitter.t) :
  Emitter.update_life (Emitter.update_velocity e)
    = Emitter.update_velocity (Emitter.update_life e) /\
  Emitter.update_life (Emitter.update_position e)
    = Emitter.update_position (Emitter.update_life e).
Proof.
  unfold Emitter.update_life, Emitter.update_velocity,
    Emitter.update_position, Emitter.set_particles. simpl.
  rewrite !map_map. split; reflexivity.
Qed.

(** X15.  The order of [update_velocity] and [update_position] matters.
    In exact arithmetic, moving after accelerating leaves every particle
    one acceleration further than accelerating after moving; velocities
    and everything else agree. *)
Theorem accelerate_then_move_ahead (e : Emitter.t) :
  Emitter.update_position (Emitter.update_velocity e) =
    Emitter.set_particles
      (map (fun q =>
              Particle.set_position
                (array_add (Particle.position q) (Particle.acceleration q)) q)
           (Emitter.particles
              (Emitter.update_velocity (Emitter.update_position e))))
      (Emitter.update_velocity (Emitter.update_position e)).
Proof.
  rewrite accelerate_move.
  unfold Emitter.update_position, Emitter.update_velocity,
    Emitter.set_particles. simpl. rewrite !map_map. f_equal.
  apply map_ext. intros [l [px py] [vx vy] [ax ay]].
  unfold Particle.set_position, array_add. simpl.
  f_equal. apply injective_projections; simpl; ring.
Qed.

End UpdateFacts.

(** ** Registrations and delivery *)

Module RegistrationFacts.
Import Py events.
Import WeakKeyDictionary EventManager ManagerFacts.

Lemma contains_app_last (l' l : Listener) (ks : list Listener) :
  existsb (Nat.eqb l') (ks ++ [l]) = (l' =? l)%nat || existsb (Nat.eqb l') ks.
Proof.
  rewrite existsb_app. simpl. rewrite orb_false_r. apply orb_comm.
Qed.

Lemma contains_filter (l' l : Listener) (ks : list Listener) :
  existsb (Nat.eqb l') (filter (fun k => negb (l =? k)%nat) ks) =
    negb (l' =? l)%nat && existsb (Nat.eqb l') ks.
Proof.
  induction ks as [|k ks IH]; simpl.
  - now rewrite andb_false_r.
  - destruct (l =? k)%nat eqn:Elk; simpl.
    + rewrite IH. apply Nat.eqb_eq in Elk. subst k.
      destruct (l' =? l)%nat; reflexivity.
    + rewrite IH. destruct (l' =? k)%nat eqn:El'k; simpl.
      * apply Nat.eqb_eq in El'k. subst k.
        rewrite Nat.eqb_sym, Elk. reflexivity.
      * reflexivity.
Qed.

(** X16.  [register_listener] adds exactly the listener it is given and
    [unregister_listener] removes exactly that one; unregistering a listener
    that is not registered leaves the manager as it is. *)
Theorem registration_membership (l l' : Listener) (self : EventManager.t) :
  contains l' (listeners (register_listener l self))
    = (l' =? l)%nat || contains l' (listeners self) /\
  contains l' (listeners (unregister_listener l self))
    = negb (l' =? l)%nat && contains l' (listeners self) /\
  (contains l (listeners self) = false -> unregister_listener l self = self).
Proof.
  destruct self as [d]. unfold register_listener, unregister_listener. simpl.
  split; [|split].
  - unfold setitem. destruct (contains l d) eqn:E.
    + destruct (l' =? l)%nat eqn:E'; [|reflexivity].
      apply Nat.eqb_eq in E'. now subst l'.
    + unfold contains. simpl. apply contains_app_last.
  - destruct (contains l d) eqn:E.
    + unfold contains. simpl. apply contains_filter.
    + simpl. destruct (l' =? l)%nat eqn:E'; [|reflexivity].
      apply Nat.eqb_eq in E'. now subst l'.
  - intros ->. reflexivity.
Qed.

Lemma registration_membership_witness :
  unregister_listener 4 (register_listener 2 init) = register_listener 2 init.
Proof.
  apply (registration_membership 4 0 (register_listener 2 init)).
  reflexivity.
Defined.

Lemma filter_out_length (l : Listener) (ks : list Listener) :
  NoDup ks -> In l ks ->
  S (List.length (filter (fun k => negb (l =? k)%nat) ks)) = List.length ks.
Proof.
  induction ks as [|k ks IH]; intros Hnd Hin; [contradiction|].
  inversion Hnd as [|k' ks' Hk Hnd']; subst. simpl.
  destruct (l =? k)%nat eqn:E; simpl.
  - apply Nat.eqb_eq in E. subst k. f_equal.
    f_equal. rewrite <- (filter_ext_in (fun _ => true)).
    + clear. induction ks as [|a ks IH]; simpl; [reflexivity | now rewrite IH].
    + intros a Ha. destruct (l =? a)%nat eqn:Ea; [|reflexivity].
      apply Nat.eqb_eq in Ea. subst a. contradiction.
  - f_equal. apply IH; [assumption|].
    destruct Hin as [-> | Hin]; [|assumption].
    rewrite Nat.eqb_refl in E. discriminate.
Qed.

(** X17.  The number of registrations goes up by one when a new listener is
    registered, down by one when a registered listener is unregistered, and
    stays in every other case. *)
Theorem registration_count (l : Listener) (self : EventManager.t) :
  NoDup (keys (listeners self)) ->
  len (listeners (register_listener l self)) =
    (if contains l (listeners self) then len (listeners self)
     else S (len (listeners self))) /\
  (if contains l (listeners self)
   then S (len (listeners (unregister_listener l self)))
   else len (listeners (unregister_listener l self)))
  = len (listeners self).
Proof.
  intro Hnd. destruct self as [d].
  unfold register_listener, unregister_listener, setitem. simpl in *.
  destruct (contains l d) eqn:E; simpl; split; try reflexivity.
  - unfold len. simpl. apply filter_out_length; [assumption|].
    now apply contains_In.
  - unfold len. simpl. rewrite length_app. simpl. lia.
Qed.

Lemma registration_count_witness :
  len (listeners (register_listener 5 (register_listener 2 init))) = 2%nat /\
  S (len (listeners (unregister_listener 2 (register_listener 2 init))))
    = 1%nat.
Proof.
  assert (Hnd : NoDup (keys (listeners (register_listener 2 init)))).
  { simpl. repeat constructor; simpl; intuition lia. }
  split.
  - exact (proj1 (registration_count 5 (register_listener 2 init) Hnd)).
  - exact (proj2 (registration_count 2 (register_listener 2 init) Hnd)).
Defined.

(** X18.  No sequence of registrations and unregistrations, starting from a
    new manager, makes a listener appear twice among the registrations. *)
Theorem registrations_distinct (cs : list call) :
  NoDup (keys (listeners (run_calls cs init))).
Proof.
  assert (H : forall m, NoDup (keys (listeners m)) ->
                        NoDup (keys (listeners (run_calls cs m)))).
  { unfold run_calls. induction cs as [|c cs IH]; intros m Hm; simpl.
    - exact Hm.
    - apply IH, run_call_NoDup, Hm. }
  apply H. simpl. constructor.
Qed.

(** X19.  [post] handles no exception.  When the listeners before [l]
    return without inserting or removing a registration and the [notify] of
    [l] raises, [post] ends with that exception at once: the listeners up
    to [l] have been notified, those after it have not, and what [l]
    registered or unregistered before it raised stays. *)
Theorem post_propagates_exception (notify : Listener -> Event -> reaction)
    (event : Event) (self : EventManager.t) (before after : list Listener)
    (l : Listener) (e : exn) :
  keys (listeners self) = before ++ l :: after ->
  (forall l', In l' before ->
              raised (notify l' event) = None /\
              Forall (idle self) (calls (notify l' event))) ->
  raised (notify l event) = Some e ->
  post notify event self =
    Failed e (run_calls (calls (notify l event)) self) (before ++ [l]).
Proof.
  intros Hk Hq Hraise. unfold post. cbv zeta. rewrite Hk.
  rewrite post_loop_through.
  - cbn [post_loop]. rewrite iter_check_intact, Hraise.
    apply notified_first_failed.
  - intros l' Hl'. destruct (Hq l' Hl') as [Hr Hc].
    split; [exact Hr | now apply run_calls_idle].
Qed.

Lemma post_propagates_exception_witness :
  post (fun l _ => match l with
                   | 2%nat => {| calls := [Register 7];
                                 raised := Some AttributeError |}
                   | _ => returning []
                   end)
       (TickEvent 16)
       (register_listener 3 (register_listener 2 (register_listener 1 init)))
    = Failed AttributeError
        (register_listener 7
           (register_listener 3
              (register_listener 2 (register_listener 1 init))))
        [1; 2]%nat.
Proof.
  apply (post_propagates_exception
           (fun l _ => match l with
                       | 2%nat => {| calls := [Register 7];
                                     raised := Some AttributeError |}
                       | _ => returning []
                       end)
           (TickEvent 16)
           (register_listener 3
              (register_listener 2 (register_listener 1 init)))
           [1%nat] [3%nat] 2%nat AttributeError).
  - reflexivity.
  - intros l' [<- | []]. split; [reflexivity | constructor].
  - reflexivity.
Defined.



End RegistrationFacts.

(** ** Input controller *)

Module ControllerFacts.
Import Py events controller.
Import InputController.

(** *** Evaluating a method body *)


(** *** Choosing the game pad *)

Section Choosing.
Variable pg : pygame.devices.

(** The search passes over the pads whose button 7 is up. *)
Lemma init_right_joystick_loop_skip (xs ys : list Z) w :
  Forall (fun i => exists j,
            nth_error (pygame.joysticks pg) (Z.to_nat i) = Some j /\
            pygame.get_button j 7 = Ok false) xs ->
  init_right_joystick_loop pg (xs ++ ys) w = init_right_joystick_loop pg ys w.
Proof.
  intro H. induction xs as [|i xs IH]; [reflexivity|].
  inversion H as [|i' xs' [j [Hj Hb]] Hxs]; subst. simpl.
  unfold Joystick. rewrite Hj. unfold bind, ret, lift. rewrite Hb.
  now apply IH.
Qed.

Lemma range_split (n : Z) (k : nat) :
  (Z.of_nat k <= n)%Z ->
  range n = map Z.of_nat (seq 0 k)
            ++ map Z.of_nat (seq k (Z.to_nat n - k)).
Proof.
  intro H. unfold range.
  replace (Z.to_nat n) with (k + (Z.to_nat n - k))%nat at 1 by lia.
  now rewrite seq_app, map_app.
Qed.

Lemma indices_up (before rest : list pygame.Joystick) :
  Forall (fun j => pygame.get_button j 7 = Ok false) before ->
  Forall (fun i => exists j,
            nth_error (before ++ rest) (Z.to_nat i) = Some j /\
            pygame.get_button j 7 = Ok false)
         (map Z.of_nat (seq 0 (List.length before))).
Proof.
  intro Hup. apply Forall_forall. intros i Hi.
  apply in_map_iff in Hi. destruct Hi as [m [<- Hm]]. apply in_seq in Hm.
  rewrite Nat2Z.id, nth_error_app1 by lia.
  destruct (nth_error before m) as [j|] eqn:E.
  - exists j. split; [reflexivity|].
    apply (proj1 (Forall_forall _ _) Hup). eapply nth_error_In, E.
  - apply nth_error_None in E. lia.
Qed.


End Choosing.

(** X21.  [init_right_joystick] chooses the first connected pad whose
    button 7 is down, and changes nothing else. *)
Theorem init_right_joystick_first (pg : pygame.devices)
    (before after : list pygame.Joystick) (j : pygame.Joystick) w :
  pygame.joysticks pg = before ++ j :: after ->
  Forall (fun j' => pygame.get_button j' 7 = Ok false) before ->
  pygame.get_button j 7 = Ok true ->
  (Z.of_nat (List.length before) < joystick_count (self w))%Z ->
  init_right_joystick pg w =
    ({| self := make (Some j) (joystick_count (self w));
        posted := posted w; pending := pending w |}, Ok tt).
Proof.
  intros Hpads Hup Hdown Hc.
  unfold init_right_joystick, bind, get_self.
  rewrite (range_split _ (List.length before)) by lia.
  rewrite init_right_joystick_loop_skip
    by (rewrite Hpads; apply indices_up, Hup).
  destruct (Z.to_nat (joystick_count (self w)) - List.length before)%nat
    as [|m] eqn:E; [lia|].
  simpl. unfold Joystick.
  rewrite Nat2Z.id, Hpads, nth_error_app2, Nat.sub_diag by lia. simpl.
  unfold bind, ret, lift. rewrite Hdown. reflexivity.
Qed.

Lemma init_right_joystick_first_witness :
  init_right_joystick
    {| pygame.joysticks :=
         [ {| pygame.get_button := fun _ => Ok false;
              pygame.get_numaxes := Ok 2%Z;
              pygame.get_axis := fun _ => Raise pygame.error;
              pygame.get_hat := fun _ => Ok (0, 0)%Z |};
           {| pygame.get_button := fun _ => Ok true;
              pygame.get_numaxes := Ok 4%Z;
              pygame.get_axis := fun _ => Ok 0%R;
              pygame.get_hat := fun _ => Ok (0, 0)%Z |} ];
       pygame.mouse_pos := (4, 5)%Z |}
    {| self := make None 2; posted := [QuitEvent]; pending := [] |} =
  ({| self :=
        make (Some {| pygame.get_button := fun _ => Ok true;
                      pygame.get_numaxes := Ok 4%Z;
                      pygame.get_axis := fun _ => Ok 0%R;
                      pygame.get_hat := fun _ => Ok (0, 0)%Z |}) 2;
      posted := [QuitEvent]; pending := [] |}, Ok tt).
Proof.
  apply (init_right_joystick_first
           {| pygame.joysticks :=
                [ {| pygame.get_button := fun _ => Ok false;
                     pygame.get_numaxes := Ok 2%Z;
                     pygame.get_axis := fun _ => Raise pygame.error;
                     pygame.get_hat := fun _ => Ok (0, 0)%Z |};
                  {| pygame.get_button := fun _ => Ok true;
                     pygame.get_numaxes := Ok 4%Z;
                     pygame.get_axis := fun _ => Ok 0%R;
                     pygame.get_hat := fun _ => Ok (0, 0)%Z |} ];
              pygame.mouse_pos := (4, 5)%Z |}
           [ {| pygame.get_button := fun _ => Ok false;
                pygame.get_numaxes := Ok 2%Z;
                pygame.get_axis := fun _ => Raise pygame.error;
                pygame.get_hat := fun _ => Ok (0, 0)%Z |} ]
           []
           {| pygame.get_button := fun _ => Ok true;
              pygame.get_numaxes := Ok 4%Z;
              pygame.get_axis := fun _ => Ok 0%R;
              pygame.get_hat := fun _ => Ok (0, 0)%Z |}
           {| self := make None 2; posted := [QuitEvent]; pending := [] |}).
  - reflexivity.
  - repeat constructor.
  - reflexivity.
  - simpl. lia.
Defined.

(** *** Without a chosen pad *)

Section Keyboard.
Variable pg : pygame.devices.
Hypothesis pads_up :
  Forall (fun j => pygame.get_button j 7 = Ok false) (pygame.joysticks pg).


End Keyboard.





(** *** With a chosen pad *)

Section Pad.
Variable pg : pygame.devices.
Variable j : pygame.Joystick.
Variables (start back : bool) (n : Z) (h v : R) (hat : Z * Z).
Hypothesis numaxes : pygame.get_numaxes j = Ok n.
Hypothesis axes :
  (3 < n)%Z -> pygame.get_axis j 2 = Ok h /\ pygame.get_axis j 3 = Ok v.

Lemma get_axis_pos_pad w :
  joystick (self w) = Some j ->
  get_axis_pos w = (w, Ok (if (3 <? n)%Z then (h, v) else (0, 0)%R)).
Proof.
  intro Hj. unfold get_axis_pos, bind, get_self, lift, ret.
  rewrite Hj, numaxes.
  destruct (3 <? n)%Z eqn:E; [|reflexivity].
  apply Z.ltb_lt in E. destruct (axes E) as [-> ->]. reflexivity.
Qed.

Lemma handle_pad (event : pygame.event) c ps q :
  (event = pygame.JOYBUTTONDOWN ->
   pygame.get_button j 7 = Ok start /\
   (start = true -> pygame.get_button j 6 = Ok back)) ->
  (event = pygame.JOYHATMOTION -> pygame.get_hat j 0 = Ok hat) ->
  handle pg event {| self := make (Some j) c; posted := ps; pending := q |} =
    ({| self := make (Some j) c;
        posted := ps ++ pad_posts start back
                          (if (3 <? n)%Z then (h, v) else (0, 0)%R) hat event;
        pending := q |}, Ok tt).
Proof.
  intros Hbutton Hhat.
  destruct event; unfold handle, pad_posts;
    try match goal with
        | |- context [(?k =? pygame.K_ESCAPE)%Z] =>
            destruct (k =? pygame.K_ESCAPE)%Z
        end;
    cbv beta iota zeta delta
      [bind ret post get_self raise lift joystick self posted pending];
    rewrite <- ?app_assoc, ?app_nil_r; try reflexivity.
  - destruct (Hbutton eq_refl) as [H7 H6]. rewrite H7.
    destruct start; [|now rewrite app_nil_r].
    rewrite (H6 eq_refl). destruct back; simpl; now rewrite ?app_nil_r.
  - rewrite get_axis_pos_pad by reflexivity. reflexivity.
  - rewrite (Hhat eq_refl). reflexivity.
Qed.

Lemma for_each_pad (queue : list pygame.event) c ps q :
  (In pygame.JOYBUTTONDOWN queue ->
   pygame.get_button j 7 = Ok start /\
   (start = true -> pygame.get_button j 6 = Ok back)) ->
  (In pygame.JOYHATMOTION queue -> pygame.get_hat j 0 = Ok hat) ->
  for_each queue (handle pg)
    {| self := make (Some j) c; posted := ps; pending := q |} =
  ({| self := make (Some j) c;
      posted := ps ++ flat_map (pad_posts start back
                                  (if (3 <? n)%Z then (h, v) else (0, 0)%R)
                                  hat) queue;
      pending := q |}, Ok tt).
Proof.
  revert ps. induction queue as [|event queue IH]; intros ps Hbutton Hhat.
  - simpl. now rewrite app_nil_r.
  - simpl. unfold bind. rewrite handle_pad.
    + rewrite IH, <- app_assoc; [reflexivity | |];
        intro H; [apply Hbutton | apply Hhat]; now right.
    + intros ->. apply Hbutton. now left.
    + intros ->. apply Hhat. now left.
Qed.

Lemma attack_request_pad c ps q :
  attack_request {| self := make (Some j) c; posted := ps; pending := q |} =
    ({| self := make (Some j) c;
        posted := ps ++ (if (3 <? n)%Z
                               && (beyond_offset h || beyond_offset v)
                         then [MouseButtonDown] else []);
        pending := q |}, Ok tt).
Proof.
  unfold attack_request.
  cbv beta iota zeta delta
    [bind ret post get_self raise lift joystick self posted pending].
  rewrite numaxes.
  destruct (3 <? n)%Z eqn:E; simpl; [|now rewrite app_nil_r].
  pose proof (get_axis_pos_pad
                {| self := make (Some j) c; posted := ps; pending := q |}
                eq_refl) as Hpos.
  rewrite E in Hpos. rewrite Hpos. simpl.
  destruct (beyond_offset h || beyond_offset v); simpl;
    now rewrite ?app_nil_r.
Qed.
End Pad.

(** X24.  Once a pad is chosen, a tick posts for every queue entry what the
    pad says: resize and quit as before, an ESC key press only [QuitEvent],
    a pad button [KeyPressed K_k] when buttons 7 and 6 are both down, a
    stick motion the second stick's position ((0, 0) for a pad with at most
    three axes), a hat motion the hat's position, even (0, 0); every other
    keyboard or mouse entry is dropped.  After the queue one
    [MouseButtonDown] follows when the second stick is off centre by more
    than 0.5. *)
Theorem notify_pad (pg : pygame.devices) (dt : Z) w (j : pygame.Joystick)
    (start back : bool) (n : Z) (h v : R) (hat : Z * Z) :
  joystick (self w) = Some j ->
  pygame.get_numaxes j = Ok n ->
  ((3 < n)%Z -> pygame.get_axis j 2 = Ok h /\ pygame.get_axis j 3 = Ok v) ->
  (In pygame.JOYBUTTONDOWN (pending w) ->
   pygame.get_button j 7 = Ok start /\
   (start = true -> pygame.get_button j 6 = Ok back)) ->
  (In pygame.JOYHATMOTION (pending w) -> pygame.get_hat j 0 = Ok hat) ->
  notify pg (TickEvent dt) w =
    ({| self := self w;
        posted :=
          posted w
          ++ flat_map (pad_posts start back
                         (if (3 <? n)%Z then (h, v) else (0, 0)%R) hat)
                      (pending w)
          ++ (if (3 <? n)%Z && (beyond_offset h || beyond_offset v)
              then [MouseButtonDown] else []);
        pending := [] |}, Ok tt).
Proof.
  intros Hj Hn Haxes Hbutton Hhat. destruct w as [[jo c] ps q].
  simpl in *. subst jo.
  unfold notify. unfold bind at 1. unfold event_get. simpl.
  unfold bind at 1.
  rewrite (for_each_pad pg j start back n h v hat Hn Haxes q c ps []
             Hbutton Hhat).
  rewrite (attack_request_pad j n h v Hn Haxes), <- app_assoc. reflexivity.
Qed.

Lemma notify_pad_witness :
  notify {| pygame.joysticks := []; pygame.mouse_pos := (4, 5)%Z |}
         (TickEvent 16)
         {| self :=
              make (Some {| pygame.get_button := fun _ => Ok true;
                            pygame.get_numaxes := Ok 2%Z;
                            pygame.get_axis := fun _ => Raise pygame.error;
                            pygame.get_hat := fun _ => Ok (0, 0)%Z |}) 1;
            posted := [];
            pending := [pygame.KEYDOWN 27; pygame.KEYUP 27;
                        pygame.JOYHATMOTION; pygame.JOYBUTTONDOWN;
                        pygame.JOYAXISMOTION] |} =
    ({| self :=
          make (Some {| pygame.get_button := fun _ => Ok true;
                        pygame.get_numaxes := Ok 2%Z;
                        pygame.get_axis := fun _ => Raise pygame.error;
                        pygame.get_hat := fun _ => Ok (0, 0)%Z |}) 1;
        posted := [QuitEvent; HatMoved 0 0; KeyPressed pygame.K_k;
                   AxisMoved 0 0];
        pending := [] |}, Ok tt).
Proof.
  apply (notify_pad
           {| pygame.joysticks := []; pygame.mouse_pos := (4, 5)%Z |} 16
           {| self :=
                make (Some {| pygame.get_button := fun _ => Ok true;
                              pygame.get_numaxes := Ok 2%Z;
                              pygame.get_axis := fun _ => Raise pygame.error;
                              pygame.get_hat := fun _ => Ok (0, 0)%Z |}) 1;
              posted := [];
              pending := [pygame.KEYDOWN 27; pygame.KEYUP 27;
                          pygame.JOYHATMOTION; pygame.JOYBUTTONDOWN;
                          pygame.JOYAXISMOTION] |}
           {| pygame.get_button := fun _ => Ok true;
              pygame.get_numaxes := Ok 2%Z;
              pygame.get_axis := fun _ => Raise pygame.error;
              pygame.get_hat := fun _ => Ok (0, 0)%Z |}
           true true 2 0%R 0%R (0, 0)%Z).
  - reflexivity.
  - reflexivity.
  - intro H. lia.
  - intros _. split; [reflexivity | intros _; reflexivity].
  - intros _. reflexivity.
Defined.

(** *** What every call keeps *)

Section Keeps.
(** A relation between the world before and after, kept by every step the
    methods are made of: posting an event other than a tick, choosing a
    pad. *)
Variable rel : world -> world -> Prop.
Hypothesis rel_refl : forall w, rel w w.
Hypothesis rel_trans : forall w1 w2 w3, rel w1 w2 -> rel w2 w3 -> rel w1 w3.
Hypothesis rel_post :
  forall ev w, (forall dt, ev <> TickEvent dt) -> rel w (fst (post ev w)).
Hypothesis rel_set_joystick : forall j w, rel w (fst (set_joystick j w)).

Let keeps (A : Type) (m : M A) : Prop := forall w, rel w (fst (m w)).

Lemma keeps_ret A (a : A) : keeps A (ret a).
Proof. intro w. apply rel_refl. Qed.

Lemma keeps_raise A (e : exn) : keeps A (raise e).
Proof. intro w. apply rel_refl. Qed.

Lemma keeps_lift A (r : result A) : keeps A (lift r).
Proof. intro w. apply rel_refl. Qed.

Lemma keeps_get_self : keeps t get_self.
Proof. intro w. apply rel_refl. Qed.

Lemma keeps_bind A B (m : M A) (k : A -> M B) :
  keeps A m -> (forall a, keeps B (k a)) -> keeps B (bind m k).
Proof.
  intros Hm Hk w. unfold bind. specialize (Hm w).
  destruct (m w) as [w1 [a|e]]; simpl in *; [|exact Hm].
  eapply rel_trans; [exact Hm | apply Hk].
Qed.

Ltac walk :=
  repeat first
    [ apply keeps_ret | apply keeps_raise | apply keeps_lift
    | apply keeps_get_self
    | (intro; apply rel_post; intro; discriminate)
    | (intro; apply rel_set_joystick)
    | apply keeps_bind; [ | intro ]
    | match goal with
      | |- keeps _ (match ?x with _ => _ end) => destruct x
      end ].

Lemma keeps_for_each A (xs : list A) (body : A -> M unit) :
  (forall x, keeps unit (body x)) -> keeps unit (for_each xs body).
Proof.
  intro H. induction xs as [|x xs IH]; simpl; walk; [apply H | exact IH].
Qed.

Variable pg : pygame.devices.

Lemma keeps_init_right_joystick_loop (indices : list Z) :
  keeps unit (init_right_joystick_loop pg indices).
Proof.
  induction indices as [|i rest IH]; simpl; walk.
  - unfold Joystick. walk.
  - exact IH.
Qed.

Lemma keeps_handle (event : pygame.event) : keeps unit (handle pg event).
Proof.
  unfold handle. destruct event; walk;
    apply keeps_init_right_joystick_loop.
Qed.

Lemma keeps_attack_request : keeps unit attack_request.
Proof. unfold attack_request. walk. Qed.

Lemma keeps_queue (queue : list pygame.event) w :
  rel w (fst (bind (for_each queue (handle pg)) (fun _ => attack_request) w)).
Proof.
  revert w. change (keeps unit (bind (for_each queue (handle pg))
                                  (fun _ => attack_request))).
  apply keeps_bind;
    [apply keeps_for_each, keeps_handle | intro; apply keeps_attack_request].
Qed.
End Keeps.

Lemma notify_other (pg : pygame.devices) (event : Event) w :
  (forall dt, event <> TickEvent dt) -> notify pg event w = (w, Ok tt).
Proof.
  intro H. destruct event; try reflexivity. exfalso. now apply (H dt).
Qed.

(** X25.  The controller never posts a tick, so it cannot set itself off:
    every event that a call of [notify] hands to the event manager is one
    that [notify], getting it back, ignores. *)
Theorem notify_ignores_own_posts (pg : pygame.devices) (event : Event) w
    (e : Event) :
  In e (posted (fst (notify pg event w))) ->
  ~ In e (posted w) ->
  (forall dt, e <> TickEvent dt) /\
  forall pg' w', notify pg' e w' = (w', Ok tt).
Proof.
  intros Hin Hnew.
  assert (Hnt : forall dt, e <> TickEvent dt).
  { destruct event;
      try (simpl in Hin; contradiction).
    unfold notify, bind at 1, event_get in Hin.
    pose proof (keeps_queue
      (fun w1 w2 => exists extra,
         posted w2 = posted w1 ++ extra /\
         Forall (fun e' => forall dt', e' <> TickEvent dt') extra)) as K.
    destruct (K
      ltac:(intro w1; exists []; now rewrite app_nil_r)
      ltac:(intros w1 w2 w3 [x1 [H1 F1]] [x2 [H2 F2]]; exists (x1 ++ x2);
            split; [now rewrite H2, H1, app_assoc |
                    apply Forall_app; now split])
      ltac:(intros ev w1 Hev; exists [ev]; split;
            [reflexivity | now constructor])
      ltac:(intros j w1; exists []; simpl; now rewrite app_nil_r)
      pg (pending w)
      {| self := self w; posted := posted w; pending := [] |})
      as [extra [Hposted Hextra]].
    simpl in Hposted. rewrite Hposted in Hin.
    apply in_app_or in Hin. destruct Hin as [Hin | Hin]; [contradiction|].
    exact (proj1 (Forall_forall _ _) Hextra e Hin). }
  split; [exact Hnt|]. intros pg' w'. apply notify_other, Hnt.
Qed.

Lemma notify_ignores_own_posts_witness :
  notify {| pygame.joysticks := []; pygame.mouse_pos := (4, 5)%Z |}
         (KeyReleased 32)
         {| self := make None 0; posted := [KeyReleased 32];
            pending := [pygame.KEYUP 32] |} =
    ({| self := make None 0; posted := [KeyReleased 32];
        pending := [pygame.KEYUP 32] |}, Ok tt).
Proof.
  apply (notify_ignores_own_posts
           {| pygame.joysticks := []; pygame.mouse_pos := (4, 5)%Z |}
           (TickEvent 16)
           {| self := make None 0; posted := [];
              pending := [pygame.KEYUP 32] |}
           (KeyReleased 32)).
  - simpl. now left.
  - simpl. intros [].
Defined.

(** X26.  A tick empties pygame's queue, also when the call ends in an
    exception; an event of any other class leaves the world as it is. *)
Theorem notify_drains_queue (pg : pygame.devices) w :
  (forall dt, pending (fst (notify pg (TickEvent dt) w)) = []) /\
  (forall event, (forall dt, event <> TickEvent dt) ->
                 notify pg event w = (w, Ok tt)).
Proof.
  split; [|intros event H; apply notify_other, H].
  intro dt. unfold notify, bind at 1, event_get.
  exact (keeps_queue (fun w1 w2 => pending w2 = pending w1)
           (fun _ => eq_refl)
           (fun w1 w2 w3 H1 H2 => eq_trans H2 H1)
           (fun _ _ _ => eq_refl) (fun _ _ => eq_refl)
           pg (pending w)
           {| self := self w; posted := posted w; pending := [] |}).
Qed.

Lemma notify_drains_queue_witness :
  notify {| pygame.joysticks := []; pygame.mouse_pos := (4, 5)%Z |}
         QuitEvent
         {| self := make None 0; posted := [];
            pending := [pygame.KEYUP 32] |} =
    ({| self := make None 0; posted := [];
        pending := [pygame.KEYUP 32] |}, Ok tt).
Proof.
  apply (notify_drains_queue
           {| pygame.joysticks := []; pygame.mouse_pos := (4, 5)%Z |}
           {| self := make None 0; posted := [];
              pending := [pygame.KEYUP 32] |}).
  intros dt. discriminate.
Defined.

(** *** The chosen pad stays *)

(** Evaluate a method body, splitting on what pygame answers. *)
Ltac settle :=
  repeat
    (cbv beta iota zeta delta
       [bind ret post get_self raise lift joystick self posted pending
        fst snd];
     match goal with
     | |- context [match pygame.get_button ?a ?b with _ => _ end] =>
         destruct (pygame.get_button a b)
     | |- context [match pygame.get_numaxes ?a with _ => _ end] =>
         destruct (pygame.get_numaxes a)
     | |- context [match pygame.get_axis ?a ?b with _ => _ end] =>
         destruct (pygame.get_axis a b)
     | |- context [match pygame.get_hat ?a ?b with _ => _ end] =>
         destruct (pygame.get_hat a b)
     | |- context [if ?b then _ else _] => destruct b
     end);
  try reflexivity.

Lemma handle_keeps_pad (pg : pygame.devices) (event : pygame.event)
    (j : pygame.Joystick) c ps q :
  self (fst (handle pg event
               {| self := make (Some j) c; posted := ps; pending := q |}))
    = make (Some j) c.
Proof.
  destruct event; unfold handle, get_axis_pos; settle.
Qed.

Lemma for_each_keeps_pad (pg : pygame.devices) (queue : list pygame.event)
    (j : pygame.Joystick) w :
  joystick (self w) = Some j ->
  self (fst (for_each queue (handle pg) w)) = self w.
Proof.
  revert w. induction queue as [|event queue IH]; intros w Hj; [reflexivity|].
  simpl. unfold bind.
  destruct w as [[jo c] ps q]. simpl in Hj. subst jo.
  pose proof (handle_keeps_pad pg event j c ps q) as H.
  destruct (handle pg event _) as [w1 [[]|e]]; simpl in H |- *; [|exact H].
  rewrite IH; [exact H | now rewrite H].
Qed.

(** X27.  A pad, once chosen, stays chosen: whatever the queue holds and
    whatever pygame answers or raises, [notify] leaves [self.joystick] and
    [self.joystick_count] as they are. *)
Theorem notify_keeps_pad (pg : pygame.devices) (event : Event)
    (j : pygame.Joystick) w :
  joystick (self w) = Some j ->
  self (fst (notify pg event w)) = self w.
Proof.
  intro Hj. destruct event; try reflexivity.
  unfold notify, bind at 1, event_get. unfold bind.
  pose proof (for_each_keeps_pad pg (pending w) j
                {| self := self w; posted := posted w; pending := [] |} Hj)
    as H.
  destruct (for_each (pending w) (handle pg) _) as [w1 [[]|e]];
    simpl in H |- *; [|exact H].
  rewrite <- H. rewrite <- H in Hj. destruct w1 as [[jo c] ps q].
  simpl in Hj. subst jo.
  unfold attack_request, get_axis_pos. settle.
Qed.

Lemma notify_keeps_pad_witness :
  self (fst (notify
               {| pygame.joysticks := []; pygame.mouse_pos := (4, 5)%Z |}
               (TickEvent 16)
               {| self :=
                    make (Some {| pygame.get_button := fun _ => Ok true;
                                  pygame.get_numaxes := Ok 2%Z;
                                  pygame.get_axis :=
                                    fun _ => Raise pygame.error;
                                  pygame.get_hat :=
                                    fun _ => Raise pygame.error |}) 1;
                  posted := [];
                  pending := [pygame.JOYBUTTONDOWN; pygame.JOYHATMOTION] |}))
  = make (Some {| pygame.get_button := fun _ => Ok true;
                  pygame.get_numaxes := Ok 2%Z;
                  pygame.get_axis := fun _ => Raise pygame.error;
                  pygame.get_hat := fun _ => Raise pygame.error |}) 1.
Proof.
  apply (notify_keeps_pad
           {| pygame.joysticks := []; pygame.mouse_pos := (4, 5)%Z |}
           (TickEvent 16)
           {| pygame.get_button := fun _ => Ok true;
              pygame.get_numaxes := Ok 2%Z;
              pygame.get_axis := fun _ => Raise pygame.error;
              pygame.get_hat := fun _ => Raise pygame.error |}
           {| self :=
                make (Some {| pygame.get_button := fun _ => Ok true;
                              pygame.get_numaxes := Ok 2%Z;
                              pygame.get_axis := fun _ => Raise pygame.error;
                              pygame.get_hat :=
                                fun _ => Raise pygame.error |}) 1;
              posted := [];
              pending := [pygame.JOYBUTTONDOWN; pygame.JOYHATMOTION] |}).
  reflexivity.
Defined.

End ControllerFacts.

(** ** Event names *)

Module EventFacts.
Import Py events.

(** X28.  The [name] of an event tells its class: two events have the same
    name exactly when they are instances of the same class. *)
Theorem name_determines_class (e1 e2 : Event) :
  name e1 = name e2 <-> class_name e1 = class_name e2.
Proof.
  destruct e1, e2; simpl; split; intro H; try reflexivity; discriminate H.
Qed.

Lemma name_determines_class_witness :
  name (KeyPressed 27) = name (KeyPressed 107).
Proof.
  apply (name_determines_class (KeyPressed 27) (KeyPressed 107)).
  reflexivity.
Defined.

End EventFacts.
